(** * Geometry collections of the GEOS wrapper (ext/geos_c_impl/geometry_collection.c)

    A shallow embedding of the collection constructor, the MultiPolygon
    assertions it checks by hand, the indexed accessors, the iterator, the
    closedness test of MultiLineString and the structural comparison of
    collections, followed by the properties established about them. *)

From Stdlib Require Import ZArith String Ascii List Lia Bool.
From stdpp Require Import base gmap sets list.

Set Warnings "-register-all,-clear-no-such-hyp".
Set Default Proof Using "Type".
Local Open Scope Z_scope.

(** ** Engine geometries

    A node of a geometry as the engine answers for it: the result of
    GEOSGeomTypeId_r (negative on failure), the result of
    GEOSGetNumGeometries_r (negative on failure), what GEOSGetGeometryN_r
    yields for each index (None is the NULL pointer of a failed fetch), and
    the coordinates, which only the collaborators look at. *)
Inductive GEOSGeometry : Type :=
  Geom (type_id : Z) (num_geometries : Z)
       (parts : list (option GEOSGeometry)) (coords : list (Z * Z)).

Definition GEOS_POINT : Z := 0.
Definition GEOS_LINESTRING : Z := 1.
Definition GEOS_LINEARRING : Z := 2.
Definition GEOS_POLYGON : Z := 3.
Definition GEOS_MULTIPOINT : Z := 4.
Definition GEOS_MULTILINESTRING : Z := 5.
Definition GEOS_MULTIPOLYGON : Z := 6.
Definition GEOS_GEOMETRYCOLLECTION : Z := 7.

Definition GEOSGeomTypeId_r (g : GEOSGeometry) : Z :=
  match g with Geom t _ _ _ => t end.

Definition GEOSGetNumGeometries_r (g : GEOSGeometry) : Z :=
  match g with Geom _ n _ _ => n end.

Definition geom_parts (g : GEOSGeometry) : list (option GEOSGeometry) :=
  match g with Geom _ _ ps _ => ps end.

Definition geom_coords (g : GEOSGeometry) : list (Z * Z) :=
  match g with Geom _ _ _ cs => cs end.

(** GEOSGetGeometryN_r: a borrowed pointer to the n-th part, NULL when the
    engine cannot produce it. *)
Definition GEOSGetGeometryN_r (g : GEOSGeometry) (n : Z) : option GEOSGeometry :=
  if n <? 0 then None
  else match geom_parts g !! Z.to_nat n with
       | Some p => p
       | None => None
       end.

(** Nesting depth of a geometry, the measure along which the recursive
    comparison descends. *)
Fixpoint depth (g : GEOSGeometry) : nat :=
  match g with
  | Geom _ _ ps _ =>
      S (list_max (map (fun p => match p with
                                 | Some c => depth c
                                 | None => O
                                 end) ps))
  end.

(** An owning pointer: the address of the engine resource together with the
    (immutable) geometry stored there. *)
Record GEOSGeom_ptr : Type := Ptr { addr : nat; target : GEOSGeometry }.

(** ** Ruby values

    The fragment of Ruby's VALUE the file manipulates: the three immediates
    used as a nilable boolean, integers, class and module objects (used as
    cast types and as per-element subtype tags), arrays, and the typed-data
    object that carries an RGeo_GeometryData. *)
Inductive VALUE : Type :=
| Qnil
| Qtrue
| Qfalse
| Fixnum (n : Z)
| Module_ (name : string)
| Ary (elems : list VALUE)
| TypedData (klass : VALUE) (geom : option GEOSGeom_ptr)
            (factory : VALUE) (klasses : VALUE)
| FactoryObj (flags : Z).

Definition NIL_P (v : VALUE) : bool :=
  match v with Qnil => true | _ => false end.

Definition RTEST (v : VALUE) : bool :=
  match v with Qnil | Qfalse => false | _ => true end.

(** rb_ary_entry: nil outside the array. *)
Definition rb_ary_entry (ary : VALUE) (i : Z) : VALUE :=
  match ary with
  | Ary elems =>
      let i := if i <? 0 then i + Z.of_nat (length elems) else i in
      if i <? 0 then Qnil
      else match elems !! Z.to_nat i with Some v => v | None => Qnil end
  | _ => Qnil
  end.

Definition rb_ary_push (ary : VALUE) (v : VALUE) : VALUE :=
  match ary with
  | Ary elems => Ary (elems ++ [v])
  | other => other
  end.

(** RGEO_GEOMETRY_DATA_PTR: the C struct behind a geometry object. It is
    only ever applied to method receivers, which are typed-data objects. *)
Record RGeo_GeometryData : Type := GeometryData {
  data_geom : option GEOSGeom_ptr;
  data_factory : VALUE;
  data_klasses : VALUE
}.

Definition RGEO_GEOMETRY_DATA_PTR (obj : VALUE) : RGeo_GeometryData :=
  match obj with
  | TypedData _ g f ks => GeometryData g f ks
  | _ => GeometryData None Qnil Qnil
  end.

(** RGEO_FACTORY_DATA_PTR(factory)->flags. *)
Definition factory_flags (factory : VALUE) : Z :=
  match factory with
  | FactoryObj flags => flags
  | _ => 0
  end.

(** The entries of RGeo_Globals used as cast types. *)
Definition feature_point : VALUE := Module_ "Point".
Definition feature_line_string : VALUE := Module_ "LineString".
Definition feature_polygon : VALUE := Module_ "Polygon".

(** ** Process state and its monad

    [live] is the set of addresses of engine resources that are allocated
    and not destroyed, [fresh] the next address the engine hands out.
    [relate_log] records the relate queries in the order they are issued and
    [yielded] the values passed to the block, so that the order of both is
    observable. *)
Record World : Type := MkWorld {
  live : gset nat;
  fresh : nat;
  relate_log : list (GEOSGeom_ptr * GEOSGeom_ptr * string);
  yielded : list VALUE
}.

Definition M (A : Type) : Type := World → A * World.

#[global] Instance M_ret : MRet M := λ A a w, (a, w).
#[global] Instance M_bind : MBind M :=
  λ A B f m w, let '(a, w') := m w in f a w'.

(** The engine allocates a resource for a geometry. *)
Definition engine_alloc (g : GEOSGeometry) : M GEOSGeom_ptr :=
  λ w, (Ptr (fresh w) g,
        MkWorld ({[fresh w]} ∪ live w) (S (fresh w)) (relate_log w) (yielded w)).

Definition GEOSGeom_destroy_r (p : GEOSGeom_ptr) : M unit :=
  λ w, (tt, MkWorld (live w ∖ {[addr p]}) (fresh w) (relate_log w) (yielded w)).

(** GEOSGeom_clone_r: a newly allocated copy. *)
Definition GEOSGeom_clone_r (g : GEOSGeometry) : M (option GEOSGeom_ptr) :=
  p ← engine_alloc g; mret (Some p).

(** rb_yield: hand a value to the block of the caller. *)
Definition rb_yield (v : VALUE) : M unit :=
  λ w, (tt, MkWorld (live w) (fresh w) (relate_log w) (yielded w ++ [v])).

(** A C function body either executes [return v], or reaches its closing
    brace without one, in which case the caller receives no defined value
    (C99 6.9.1p12). *)
Inductive c_result (A : Type) : Type :=
| Returns (v : A)
| NoReturnStatement.
Arguments Returns {A} v.
Arguments NoReturnStatement {A}.

(** ** DE-9IM patterns

    GEOSRelatePattern_r compares the intersection matrix of two geometries
    (nine characters among F, 0, 1, 2) with a pattern whose characters are
    a dimension, F, T (any dimension) or * (anything). *)
Definition dimension_matches (m p : ascii) : bool :=
  if Ascii.eqb p "*" then true
  else if Ascii.eqb p "T" then
    Ascii.eqb m "0" || Ascii.eqb m "1" || Ascii.eqb m "2"
  else Ascii.eqb m p.

Fixpoint matrix_matches (m pat : string) : bool :=
  match m, pat with
  | EmptyString, EmptyString => true
  | String a m', String p pat' => dimension_matches a p && matrix_matches m' pat'
  | _, _ => false
  end.

Section Collection.

(** ** Collaborators defined outside this file

    [convert_element obj factory type] is what
    rgeo_convert_to_detached_geos_geometry makes of a caller element: no
    geometry, or a detached geometry and the class written to its out
    parameter. [engine_assembles] tells whether GEOSGeom_createCollection_r
    accepts the members. [relate_matrix] is the DE-9IM matrix the engine
    computes for a pair (None when the computation raises). The last three
    are the line-string closedness test and the two comparators the
    collection comparison dispatches to. *)
Variable convert_element : VALUE → VALUE → VALUE → option (GEOSGeometry * VALUE).
Variable engine_assembles : Z → list GEOSGeometry → bool.
Variable relate_matrix : GEOSGeometry → GEOSGeometry → option string.
Variable rgeo_is_geos_line_string_closed : GEOSGeometry → VALUE.
Variable rgeo_geos_coordseqs_eql : GEOSGeometry → GEOSGeometry → Z → VALUE.
Variable rgeo_geos_polygons_eql : GEOSGeometry → GEOSGeometry → Z → VALUE.

(** Modelled from the spec: rgeo_convert_to_detached_geos_geometry, defined
    in another file of the extension, is toDetachedHandle(callerElement,
    factory, expectedKind) -> (handle, optionalSubtypeTag) | failure. Whether
    an element converts, and to what, is the collaborator's answer; a
    converted geometry is a resource of its own, which the engine
    allocates. *)
Definition rgeo_convert_to_detached_geos_geometry
    (obj factory type : VALUE) : M (option GEOSGeom_ptr * VALUE) :=
  match convert_element obj factory type with
  | None => mret (None, Qnil)
  | Some (g, klass) => p ← engine_alloc g; mret (Some p, klass)
  end.

(** The char GEOSRelatePattern_r answers with: 1 when the matrix matches the
    pattern, 0 when it does not, 2 when the engine raised. *)
Definition relate_pattern (g1 g2 : GEOSGeometry) (pat : string) : Z :=
  match relate_matrix g1 g2 with
  | None => 2
  | Some m => if matrix_matches m pat then 1 else 0
  end.

Definition GEOSRelatePattern_r (g1 g2 : GEOSGeom_ptr) (pat : string) : M Z :=
  λ w, (relate_pattern (target g1) (target g2) pat,
        MkWorld (live w) (fresh w) (relate_log w ++ [(g1, g2, pat)]) (yielded w)).

(** GEOSGeom_createCollection_r: on success the members become part of the
    resource of the new collection. On failure the members are taken to be
    released by the engine, as the NOTE at the end of
    create_geometry_collection assumes. *)
Definition GEOSGeom_createCollection_r
    (type : Z) (geoms : list GEOSGeom_ptr) (len : nat) : M (option GEOSGeom_ptr) :=
  λ w,
    let members := take len geoms in
    let w1 := MkWorld (live w ∖ list_to_set (addr <$> members))
                      (fresh w) (relate_log w) (yielded w) in
    if engine_assembles type (target <$> members) then
      (p ← engine_alloc (Geom type (Z.of_nat len)
                              ((λ m, Some (target m)) <$> members) []);
       mret (Some p)) w1
    else (None, w1).

(** Modelled from the spec: rgeo_wrap_geos_geometry, defined in another file
    of the extension, is wrap(factory, handle, classHint) -> callerObject;
    it is given no tag sequence, and a NULL handle yields nil. *)
Definition rgeo_wrap_geos_geometry
    (factory : VALUE) (geom : option GEOSGeom_ptr) (klass : VALUE) : VALUE :=
  match geom with
  | None => Qnil
  | Some p => TypedData klass (Some p) factory Qnil
  end.

(** Modelled from the spec: rgeo_wrap_geos_geometry_clone, defined in another
    file of the extension, is wrapClone(factory, handle, subtypeTag) ->
    callerObject: the object wraps a newly engine-allocated copy of the
    geometry; a NULL handle yields nil. *)
Definition rgeo_wrap_geos_geometry_clone
    (factory : VALUE) (geom : option GEOSGeometry) (klass : VALUE) : M VALUE :=
  match geom with
  | None => mret Qnil
  | Some g =>
      clone_geom ← GEOSGeom_clone_r g;
      mret (rgeo_wrap_geos_geometry factory clone_geom klass)
  end.

(** RGEO_GEOMETRY_DATA_PTR(result)->klasses = klasses *)
Definition set_klasses (obj klasses : VALUE) : VALUE :=
  match obj with
  | TypedData k g f _ => TypedData k g f klasses
  | other => other
  end.

(** ** create_geometry_collection *)

(** The conversion loop, lines 84-99. [steps] is the number of iterations
    left, [i] the loop index; the result is the index at which the loop
    stopped, the handles stored in the buffer and the class array. *)
Fixpoint convert_loop (factory cast_type : VALUE) (array : list VALUE)
    (steps i : nat) (geoms : list GEOSGeom_ptr) (klasses : VALUE)
    : M (nat * list GEOSGeom_ptr * VALUE) :=
  match steps with
  | O => mret (i, geoms, klasses)
  | S steps' =>
      r ← rgeo_convert_to_detached_geos_geometry
            (rb_ary_entry (Ary array) (Z.of_nat i)) factory cast_type;
      match r with
      | (None, _) => mret (i, geoms, klasses)
      | (Some geom, klass) =>
          let geoms := geoms ++ [geom] in
          let klasses :=
            if negb (NIL_P klass) && NIL_P klasses
            then Nat.iter i (λ ks, rb_ary_push ks Qnil) (Ary [])
            else klasses in
          let klasses :=
            if negb (NIL_P klasses) then rb_ary_push klasses klass else klasses in
          convert_loop factory cast_type array steps' (S i) geoms klasses
      end
  end.

(** for (j=0; j<i; ++j) GEOSGeom_destroy_r(geos_context, geoms[j]); *)
Fixpoint destroy_each (geoms : list GEOSGeom_ptr) : M unit :=
  match geoms with
  | [] => mret tt
  | g :: rest => GEOSGeom_destroy_r g;; destroy_each rest
  end.

(** The inner loop of the MultiPolygon assertions, lines 112-123. *)
Fixpoint relate_inner (geoms : list GEOSGeom_ptr) (steps i j : nat)
    (problem : Z) : M Z :=
  match steps with
  | O => mret problem
  | S steps' =>
      match geoms !! i, geoms !! j with
      | Some igeom, Some jgeom =>
          problem ← GEOSRelatePattern_r igeom jgeom "2********";
          if negb (problem =? 0) then mret problem
          else
            problem ← GEOSRelatePattern_r igeom jgeom "****1****";
            if negb (problem =? 0) then mret problem
            else relate_inner geoms steps' i (S j) problem
      | _, _ => mret problem
      end
  end.

(** The outer loop, lines 111-127. *)
Fixpoint relate_outer (geoms : list GEOSGeom_ptr) (steps i : nat)
    (problem : Z) : M Z :=
  match steps with
  | O => mret problem
  | S steps' =>
      problem ← relate_inner geoms i i 0%nat problem;
      if negb (problem =? 0) then mret problem
      else relate_outer geoms steps' (S i) problem
  end.

(** The switch of lines 73-83. *)
Definition cast_type_for (type : Z) : VALUE :=
  if type =? GEOS_MULTIPOINT then feature_point
  else if type =? GEOS_MULTILINESTRING then feature_line_string
  else if type =? GEOS_MULTIPOLYGON then feature_polygon
  else Qnil.

(** [array] holds the elements of the Ruby array (Check_Type admits nothing
    else); its length is taken to fit the unsigned int [len]. The buffer
    [geoms] is the list of the handles stored so far. *)
Definition create_geometry_collection
    (module : VALUE) (type : Z) (factory : VALUE) (array : list VALUE) : M VALUE :=
  let len := length array in
  let cast_type := cast_type_for type in
  '(i, geoms, klasses) ← convert_loop factory cast_type array len 0%nat [] Qnil;
  if negb (i =? len)%nat then
    destroy_each (take i geoms);; mret Qnil
  else
    collection ← GEOSGeom_createCollection_r type geoms len;
    collection ←
      match collection with
      | Some c =>
          if (type =? GEOS_MULTIPOLYGON) && (Z.land (factory_flags factory) 1 =? 0)
          then
            problem ← relate_outer geoms (len - 1) 1%nat 0;
            if negb (problem =? 0)
            then GEOSGeom_destroy_r c;; mret None
            else mret (Some c)
          else mret (Some c)
      | None => mret None
      end;
    match collection with
    | Some c =>
        mret (set_klasses (rgeo_wrap_geos_geometry factory (Some c) module) klasses)
    | None => mret Qnil
    end.

(** ** Accessors *)

(** [n] is the int that NUM2INT makes of the index, [allow_negatives] the
    char flag. *)
Definition impl_geometry_n (self : VALUE) (n : Z) (allow_negatives : Z) : M VALUE :=
  let self_data := RGEO_GEOMETRY_DATA_PTR self in
  match data_geom self_data with
  | None => mret Qnil
  | Some self_ptr =>
      let self_geom := target self_ptr in
      let klasses := data_klasses self_data in
      let i := n in
      if negb (allow_negatives =? 0) || (i >=? 0) then
        let len := GEOSGetNumGeometries_r self_geom in
        let i := if i <? 0 then i + len else i in
        if (i >=? 0) && (i <? len) then
          rgeo_wrap_geos_geometry_clone (data_factory self_data)
            (GEOSGetGeometryN_r self_geom i)
            (if NIL_P klasses then Qnil else rb_ary_entry klasses i)
        else mret Qnil
      else mret Qnil
  end.

(** The body of this method is the statement [impl_geometry_n(self, n, 0);]
    and nothing else: the value computed is dropped and the closing brace is
    reached. *)
Definition method_geometry_collection_geometry_n
    (self : VALUE) (n : Z) : M (c_result VALUE) :=
  impl_geometry_n self n 0;; mret NoReturnStatement.

(** Likewise [impl_geometry_n(self, n, 1);] with no return statement. *)
Definition method_geometry_collection_brackets
    (self : VALUE) (n : Z) : M (c_result VALUE) :=
  impl_geometry_n self n 1;; mret NoReturnStatement.

(** The loop of method_geometry_collection_each, lines 233-240. *)
Fixpoint each_loop (self_data : RGeo_GeometryData) (self_geom : GEOSGeometry)
    (klasses : VALUE) (steps : nat) (i : Z) : M unit :=
  match steps with
  | O => mret tt
  | S steps' =>
      let elem_geom := GEOSGetGeometryN_r self_geom i in
      elem ← rgeo_wrap_geos_geometry_clone (data_factory self_data) elem_geom
               (if NIL_P klasses then Qnil else rb_ary_entry klasses i);
      (if negb (NIL_P elem) then rb_yield elem else mret tt);;
      each_loop self_data self_geom klasses steps' (i + 1)
  end.

Definition method_geometry_collection_each (self : VALUE) : M VALUE :=
  let self_data := RGEO_GEOMETRY_DATA_PTR self in
  match data_geom self_data with
  | None => mret self
  | Some self_ptr =>
      let self_geom := target self_ptr in
      let len := GEOSGetNumGeometries_r self_geom in
      if len >? 0 then
        let klasses := data_klasses self_data in
        each_loop self_data self_geom klasses (Z.to_nat len) 0;; mret self
      else mret self
  end.

(** ** MultiLineString: is_closed? *)

Definition VALUE_is_Qtrue (v : VALUE) : bool :=
  match v with Qtrue => true | _ => false end.

(** The loop of method_multi_line_string_is_closed, lines 295-303. The
    closedness test receives [self_geom], as in the source. *)
Fixpoint is_closed_loop (self_geom : GEOSGeometry) (steps : nat) (i : Z)
    (result : VALUE) : VALUE :=
  match steps with
  | O => result
  | S steps' =>
      match GEOSGetGeometryN_r self_geom i with
      | Some geom =>
          let result := rgeo_is_geos_line_string_closed self_geom in
          if negb (VALUE_is_Qtrue result) then result
          else is_closed_loop self_geom steps' (i + 1) result
      | None => is_closed_loop self_geom steps' (i + 1) result
      end
  end.

Definition method_multi_line_string_is_closed (self : VALUE) : VALUE :=
  let self_data := RGEO_GEOMETRY_DATA_PTR self in
  match data_geom self_data with
  | None => Qnil
  | Some self_ptr =>
      let self_geom := target self_ptr in
      let result := Qtrue in
      let len := GEOSGetNumGeometries_r self_geom in
      if len >? 0 then is_closed_loop self_geom (Z.to_nat len) 0 result
      else result
  end.

(** ** rgeo_geos_geometry_collections_eql *)

(** One iteration of the loop over the children, lines 447-490: the value
    assigned to [result] and whether the iteration leaves the loop. [recur]
    stands for the recursive call of line 467. *)
Definition eql_iteration
    (recur : option GEOSGeometry → option GEOSGeometry → Z → VALUE)
    (geom1 geom2 : GEOSGeometry) (check_z : Z) (i : Z) : VALUE * bool :=
  let sub_geom1 := GEOSGetGeometryN_r geom1 i in
  let sub_geom2 := GEOSGetGeometryN_r geom2 i in
  match sub_geom1, sub_geom2 with
  | Some s1, Some s2 =>
      let type1 := GEOSGeomTypeId_r s1 in
      let type2 := GEOSGeomTypeId_r s2 in
      if (type1 >=? 0) && (type2 >=? 0) then
        if type1 =? type2 then
          let result :=
            if (type1 =? GEOS_POINT) || (type1 =? GEOS_LINESTRING)
               || (type1 =? GEOS_LINEARRING)
            then rgeo_geos_coordseqs_eql s1 s2 check_z
            else if type1 =? GEOS_POLYGON
            then rgeo_geos_polygons_eql s1 s2 check_z
            else if (type1 =? GEOS_GEOMETRYCOLLECTION) || (type1 =? GEOS_MULTIPOINT)
                    || (type1 =? GEOS_MULTILINESTRING) || (type1 =? GEOS_MULTIPOLYGON)
            then recur (Some s1) (Some s2) check_z
            else Qnil in
          if negb (RTEST result) then (result, true) else (result, false)
        else (Qfalse, true)
      else (Qnil, true)
  | _, _ => (Qnil, true)
  end.

Fixpoint eql_loop
    (recur : option GEOSGeometry → option GEOSGeometry → Z → VALUE)
    (geom1 geom2 : GEOSGeometry) (check_z : Z) (steps : nat) (i : Z)
    (result : VALUE) : VALUE :=
  match steps with
  | O => result
  | S steps' =>
      let '(result, leave) := eql_iteration recur geom1 geom2 check_z i in
      if leave then result
      else eql_loop recur geom1 geom2 check_z steps' (i + 1) result
  end.

(** The body of the function, with [recur] for its recursive call. *)
Definition eql_body
    (recur : option GEOSGeometry → option GEOSGeometry → Z → VALUE)
    (geom1 geom2 : option GEOSGeometry) (check_z : Z) : VALUE :=
  match geom1, geom2 with
  | Some g1, Some g2 =>
      let len1 := GEOSGetNumGeometries_r g1 in
      let len2 := GEOSGetNumGeometries_r g2 in
      if (len1 >=? 0) && (len2 >=? 0) then
        if len1 =? len2 then
          eql_loop recur g1 g2 check_z (Z.to_nat len1) 0 Qtrue
        else Qfalse
      else Qnil
  | _, _ => Qnil
  end.

(** The recursion descends into the children of [geom1]; [fuel] bounds the
    nesting it can follow. *)
Fixpoint eql_fuel (fuel : nat) (geom1 geom2 : option GEOSGeometry)
    (check_z : Z) : VALUE :=
  match fuel with
  | O => Qnil
  | S fuel' => eql_body (eql_fuel fuel') geom1 geom2 check_z
  end.

(** The function itself: the nesting depth of [geom1] is fuel enough
    (lemma [eql_fuel_enough]), so that it satisfies the recursive equation
    of the source (lemma [rgeo_geos_geometry_collections_eql_unfold]). *)
Definition rgeo_geos_geometry_collections_eql
    (geom1 geom2 : option GEOSGeometry) (check_z : Z) : VALUE :=
  eql_fuel (match geom1 with Some g => depth g | None => 1%nat end)
           geom1 geom2 check_z.

(** ** Vocabulary of the statements *)

(** The nilable boolean of the comparison: true, false or indeterminate. *)
Definition three_valued (v : VALUE) : Prop :=
  v = Qtrue ∨ v = Qfalse ∨ v = Qnil.



(** The conversions of the leading elements of a list, up to the first
    element that does not convert. *)
Fixpoint converted_prefix (factory cast_type : VALUE) (objs : list VALUE)
    : list (GEOSGeometry * VALUE) :=
  match objs with
  | [] => []
  | obj :: rest =>
      match convert_element obj factory cast_type with
      | None => []
      | Some gk => gk :: converted_prefix factory cast_type rest
      end
  end.

(** The handles the engine allocates, from address [base] on, for a list of
    geometries. *)
Definition handles_from (base : nat) (gs : list GEOSGeometry) : list GEOSGeom_ptr :=
  imap (λ j g, Ptr (base + j) g) gs.

(** The state of the class array of the conversion loop once the elements
    with the given classes have been processed. *)
Definition sparse_klasses (tags : list VALUE) : VALUE :=
  if forallb NIL_P tags then Qnil else Ary tags.

(** The state after [n] further allocations. *)
Definition allocated (n : nat) (w : World) : World :=
  MkWorld (list_to_set (seq (fresh w) n) ∪ live w) (fresh w + n)
          (relate_log w) (yielded w).

(** Addresses are handed out in increasing order: every live resource lies
    below [fresh]. *)
Definition world_ok (w : World) : Prop :=
  ∀ a, a ∈ live w → (a < fresh w)%nat.

(** The relate queries as (i, j, pattern): those of one pair in the order
    the inner loop issues them, those of the pairs (i, j), ..., (i, j+count-1)
    of one row, and those of a whole run over [len] members, rows ascending
    from 1 and, within a row, columns ascending from 0. *)
Definition pair_queries (i j : nat) : list (nat * nat * string) :=
  [(i, j, "2********"%string); (i, j, "****1****"%string)].

Definition row_queries (i from count : nat) : list (nat * nat * string) :=
  flat_map (pair_queries i) (seq from count).

Definition all_queries (len : nat) : list (nat * nat * string) :=
  flat_map (λ i, row_queries i 0 i) (seq 1 (len - 1)).

(** The answer of the engine to a query about the members [geoms]. *)
Definition query_answer (geoms : list GEOSGeom_ptr) (q : nat * nat * string) : Z :=
  match geoms !! q.1.1, geoms !! q.1.2 with
  | Some igeom, Some jgeom => relate_pattern (target igeom) (target jgeom) q.2
  | _, _ => 0
  end.

(** The entry a query leaves in the relate log. *)
Definition query_entry (geoms : list GEOSGeom_ptr) (q : nat * nat * string)
    : option (GEOSGeom_ptr * GEOSGeom_ptr * string) :=
  match geoms !! q.1.1, geoms !! q.1.2 with
  | Some igeom, Some jgeom => Some (igeom, jgeom, q.2)
  | _, _ => None
  end.

(** Going through a list of queries up to and including the first one whose
    answer is not zero: the queries gone through and the last answer. *)
Fixpoint issue_until_problem (answer : nat * nat * string → Z)
    (qs : list (nat * nat * string)) : list (nat * nat * string) * Z :=
  match qs with
  | [] => ([], 0)
  | q :: rest =>
      if answer q =? 0
      then let '(issued, problem) := issue_until_problem answer rest in
           (q :: issued, problem)
      else ([q], answer q)
  end.

(** A pair of members violates the MultiPolygon assertions, as the loops
    test it: one of the two relate calls answers with a non-zero char. *)
Definition pair_flagged (gi gj : GEOSGeometry) : Prop :=
  relate_pattern gi gj "2********" ≠ 0 ∨ relate_pattern gi gj "****1****" ≠ 0.

(** The matrix of the pair matches one of the two patterns. *)
Definition pair_matches (gi gj : GEOSGeometry) : Prop :=
  relate_pattern gi gj "2********" = 1 ∨ relate_pattern gi gj "****1****" = 1.

(** The state once the given queries have been issued. *)
Definition log_queries (geoms : list GEOSGeom_ptr)
    (qs : list (nat * nat * string)) (w : World) : World :=
  MkWorld (live w) (fresh w) (relate_log w ++ omap (query_entry geoms) qs)
          (yielded w).

(** The state after the [n] member handles allocated from [fresh w] on have
    been handed to the engine for assembly: the members are no longer
    resources of their own. *)
Definition members_consumed (n : nat) (w : World) : World :=
  MkWorld (live (allocated n w) ∖ list_to_set (seq (fresh w) n))
          (fresh w + n) (relate_log w) (yielded w).

(** The collection handle the engine returns for the members [gs]. *)
Definition assembled_collection (type : Z) (gs : list GEOSGeometry) (w : World)
    : GEOSGeom_ptr :=
  Ptr (fresh w + length gs)
      (Geom type (Z.of_nat (length gs)) ((λ g, Some g) <$> gs) []).

(** Two entries of a DE-9IM matrix: the dimension of the intersection of the
    two interiors (first character) and of the two boundaries (fifth). *)
Definition interior_interior (m : string) : option ascii := String.get 0 m.
Definition boundary_boundary (m : string) : option ascii := String.get 4 m.

(** The object the accessors and the iterator build for the child [g] at
    index [i]: it wraps a copy of [g], allocated at address [a], under the
    class stored for that index. *)
Definition child_clone (factory klasses : VALUE) (a : nat) (i : Z)
    (g : GEOSGeometry) : VALUE :=
  TypedData (if NIL_P klasses then Qnil else rb_ary_entry klasses i)
            (Some (Ptr a g)) factory Qnil.

(** A geometry whose count is the number of [children] and whose every
    child can be fetched. *)
Definition collection_of (g : GEOSGeometry) (children : list GEOSGeometry) : Prop :=
  GEOSGetNumGeometries_r g = Z.of_nat (length children)
  ∧ geom_parts g = (λ c, Some c) <$> children.

(** ** Sample data

    Concrete collaborators and geometries on which the statements below are
    evaluated. Coordinates are integer pairs; rings list their vertices and
    end where they start. *)

Definition square_west : GEOSGeometry :=
  Geom GEOS_POLYGON 1 [] [(0, 0); (1, 0); (1, 1); (0, 1); (0, 0)].

(** Shares the edge x = 1 with [square_west]. *)
Definition square_east : GEOSGeometry :=
  Geom GEOS_POLYGON 1 [] [(1, 0); (2, 0); (2, 1); (1, 1); (1, 0)].

(** Meets [square_west] in the single point (1, 1). *)
Definition square_corner : GEOSGeometry :=
  Geom GEOS_POLYGON 1 [] [(1, 1); (2, 1); (2, 2); (1, 2); (1, 1)].

(** Covers [square_west]. *)
Definition square_big : GEOSGeometry :=
  Geom GEOS_POLYGON 1 [] [(0, 0); (2, 0); (2, 2); (0, 2); (0, 0)].

(** A self-intersecting ring, on which the engine's relate raises. *)
Definition bowtie : GEOSGeometry :=
  Geom GEOS_POLYGON 1 [] [(0, 0); (2, 2); (2, 0); (0, 2); (0, 0)].

Definition point_origin : GEOSGeometry := Geom GEOS_POINT 1 [] [(0, 0)].
Definition point_far : GEOSGeometry := Geom GEOS_POINT 1 [] [(5, 5)].

Definition line_open : GEOSGeometry :=
  Geom GEOS_LINESTRING 1 [] [(0, 0); (1, 0); (1, 1)].

Definition line_closed : GEOSGeometry :=
  Geom GEOS_LINESTRING 1 [] [(0, 0); (1, 0); (1, 1); (0, 0)].

Definition multi_line_open : GEOSGeometry :=
  Geom GEOS_MULTILINESTRING 1 [Some line_open] [].

Definition multi_line_closed : GEOSGeometry :=
  Geom GEOS_MULTILINESTRING 1 [Some line_closed] [].

Definition collection_two_points : GEOSGeometry :=
  Geom GEOS_GEOMETRYCOLLECTION 2 [Some point_origin; Some point_far] [].

Definition collection_one_point : GEOSGeometry :=
  Geom GEOS_GEOMETRYCOLLECTION 1 [Some point_origin] [].

(** A collection inside a collection. *)
Definition collection_nested : GEOSGeometry :=
  Geom GEOS_GEOMETRYCOLLECTION 2 [Some collection_two_points; Some point_far] [].

(** A collection whose second child cannot be fetched. *)
Definition collection_broken_child : GEOSGeometry :=
  Geom GEOS_GEOMETRYCOLLECTION 2 [Some point_origin; None] [].

Definition sample_factory : VALUE := FactoryObj 0.
Definition sample_factory_no_validation : VALUE := FactoryObj 1.
Definition sample_module : VALUE := Module_ "MultiPolygonImpl".

(** A caller element: a feature object of class [klass] around [g], whose own
    handle lives at address [a]. *)
Definition sample_feature (klass : VALUE) (a : nat) (g : GEOSGeometry) : VALUE :=
  TypedData klass (Some (Ptr a g)) sample_factory Qnil.

(** The state in which the sample elements (addresses 0 to 2) exist. *)
Definition sample_world : World := MkWorld {[0%nat; 1%nat; 2%nat]} 3 [] [].

(** A conversion that accepts feature objects of the kind the cast type asks
    for, and reports their class. *)
Definition sample_convert (obj factory type : VALUE)
    : option (GEOSGeometry * VALUE) :=
  match obj with
  | TypedData klass (Some p) _ _ =>
      let kind := GEOSGeomTypeId_r (target p) in
      let accepted :=
        match type with
        | Module_ name =>
            if String.eqb name "Point" then kind =? GEOS_POINT
            else if String.eqb name "LineString" then kind =? GEOS_LINESTRING
            else if String.eqb name "Polygon" then kind =? GEOS_POLYGON
            else true
        | _ => true
        end in
      if accepted then Some (target p, klass) else None
  | _ => None
  end.

Definition sample_assembles (type : Z) (gs : list GEOSGeometry) : bool := true.

(** The intersection matrices of the sample polygons. *)
Definition sample_relate_matrix (a b : GEOSGeometry) : option string :=
  let ca := geom_coords a in
  let cb := geom_coords b in
  if decide (ca = geom_coords bowtie ∨ cb = geom_coords bowtie) then None
  else if decide (ca = cb) then Some "2FFF1FFF2"%string
  else if decide (ca = geom_coords square_big ∨ cb = geom_coords square_big)
  then Some "212101212"%string
  else if decide (ca = geom_coords square_corner ∨ cb = geom_coords square_corner)
  then (if decide (ca = geom_coords square_west ∨ cb = geom_coords square_west)
        then Some "FF2F01212"%string else Some "FF2F11212"%string)
  else Some "FF2F11212"%string.

(** Closedness of a line string by its end points; other kinds have no
    coordinate sequence to look at. *)
Definition sample_line_string_closed (g : GEOSGeometry) : VALUE :=
  if (GEOSGeomTypeId_r g =? GEOS_LINESTRING) || (GEOSGeomTypeId_r g =? GEOS_LINEARRING)
  then match geom_coords g with
       | [] => Qtrue
       | c :: rest => if decide (last (c :: rest) = Some c) then Qtrue else Qfalse
       end
  else Qnil.

Definition sample_coordseqs_eql (a b : GEOSGeometry) (check_z : Z) : VALUE :=
  if decide (geom_coords a = geom_coords b) then Qtrue else Qfalse.

Definition sample_polygons_eql (a b : GEOSGeometry) (check_z : Z) : VALUE :=
  if decide (geom_coords a = geom_coords b) then Qtrue else Qfalse.

(** Arrays of caller elements. *)
Definition elements_polygon_point_polygon : list VALUE :=
  [sample_feature Qnil 0 square_west; sample_feature Qnil 1 point_origin;
   sample_feature Qnil 2 square_east].

Definition elements_shared_edge : list VALUE :=
  [sample_feature Qnil 0 square_west; sample_feature Qnil 1 square_east].

Definition elements_shared_corner : list VALUE :=
  [sample_feature Qnil 0 square_west;
   sample_feature (Module_ "ProjectedPolygon") 1 square_corner].

Definition elements_with_bowtie : list VALUE :=
  [sample_feature Qnil 0 square_west; sample_feature Qnil 1 bowtie].

Definition elements_overlapping : list VALUE :=
  [sample_feature Qnil 0 square_west; sample_feature Qnil 1 square_big].

(** Receivers. *)
Definition sample_collection_ptr : GEOSGeom_ptr := Ptr 0 collection_two_points.

Definition sample_collection_klasses : VALUE :=
  Ary [Qnil; Module_ "ProjectedPoint"].

Definition sample_collection : VALUE :=
  TypedData (Module_ "GeometryCollectionImpl") (Some sample_collection_ptr)
            sample_factory sample_collection_klasses.

Definition sample_multi_line_ptr : GEOSGeom_ptr := Ptr 0 multi_line_open.

(** ** Further methods of the file *)

(** INT2NUM: the Ruby integer of a C int. *)
Definition INT2NUM (n : Z) : VALUE := Fixnum n.

(** method_geometry_collection_num_geometries, lines 174-183; it is
    registered under the names num_geometries and size. *)
Definition method_geometry_collection_num_geometries (self : VALUE) : VALUE :=
  let result := Qnil in
  let self_data := RGEO_GEOMETRY_DATA_PTR self in
  match data_geom self_data with
  | Some self_ptr => INT2NUM (GEOSGetNumGeometries_r (target self_ptr))
  | None => result
  end.

(** The four class-method wrappers, lines 360-381. *)
Definition cmethod_geometry_collection_create
    (module factory : VALUE) (array : list VALUE) : M VALUE :=
  create_geometry_collection module GEOS_GEOMETRYCOLLECTION factory array.

Definition cmethod_multi_point_create
    (module factory : VALUE) (array : list VALUE) : M VALUE :=
  create_geometry_collection module GEOS_MULTIPOINT factory array.

Definition cmethod_multi_line_string_create
    (module factory : VALUE) (array : list VALUE) : M VALUE :=
  create_geometry_collection module GEOS_MULTILINESTRING factory array.

Definition cmethod_multi_polygon_create
    (module factory : VALUE) (array : list VALUE) : M VALUE :=
  create_geometry_collection module GEOS_MULTIPOLYGON factory array.

(** A char holds the low eight bits of an int, read as a signed number. *)
Definition to_char (n : Z) : Z := (n + 128) mod 256 - 128.

Section Equality_method.

(** rgeo_geos_klasses_and_factories_eql and the flag mask
    RGEO_FACTORYFLAGS_SUPPORTS_Z_OR_M are defined in other files of the
    extension. *)
Variable rgeo_geos_klasses_and_factories_eql : VALUE → VALUE → VALUE.
Variable RGEO_FACTORYFLAGS_SUPPORTS_Z_OR_M : Z.

(** method_geometry_collection_eql, lines 152-160. *)
Definition method_geometry_collection_eql (self rhs : VALUE) : VALUE :=
  let result := rgeo_geos_klasses_and_factories_eql self rhs in
  if RTEST result then
    let self_data := RGEO_GEOMETRY_DATA_PTR self in
    rgeo_geos_geometry_collections_eql
      (target <$> data_geom self_data)
      (target <$> data_geom (RGEO_GEOMETRY_DATA_PTR rhs))
      (to_char (Z.land (factory_flags (data_factory self_data))
                       RGEO_FACTORYFLAGS_SUPPORTS_Z_OR_M))
  else result.

End Equality_method.

(** ** Vocabulary of the further statements *)

(** The kinds the comparison descends into. *)
Definition collection_kind (t : Z) : bool :=
  (t =? GEOS_GEOMETRYCOLLECTION) || (t =? GEOS_MULTIPOINT)
  || (t =? GEOS_MULTILINESTRING) || (t =? GEOS_MULTIPOLYGON).

(** A geometry all of whose queries are answered, at every level the
    comparison can reach: the count is the number of parts, every part can
    be fetched and has a recognized kind, and so on inside the parts that
    are collections. *)
Fixpoint well_nested (g : GEOSGeometry) : bool :=
  match g with
  | Geom _ n ps _ =>
      (n =? Z.of_nat (length ps))
      && forallb (λ p, match p with
                       | Some c =>
                           (0 <=? GEOSGeomTypeId_r c) && (GEOSGeomTypeId_r c <=? 7)
                           && (if collection_kind (GEOSGeomTypeId_r c)
                               then well_nested c else true)
                       | None => false
                       end) ps
  end.

(** The children of [g] at the indices [from], ..., [from + count - 1] that
    can be fetched, with their indices. *)
Definition fetchable (g : GEOSGeometry) (from count : nat)
    : list (Z * GEOSGeometry) :=
  omap (λ i : nat, match GEOSGetGeometryN_r g (Z.of_nat i) with
                   | Some c => Some (Z.of_nat i, c)
                   | None => None
                   end)
       (seq from count).

(** ** Sample data of the further statements *)

(** A class-and-factory check that passes for two geometry objects of the
    same factory. *)
Definition sample_klasses_and_factories_eql (a b : VALUE) : VALUE :=
  match a, b with
  | TypedData _ _ (FactoryObj fa) _, TypedData _ _ (FactoryObj fb) _ =>
      if fa =? fb then Qtrue else Qfalse
  | _, _ => Qfalse
  end.

(** The mask of the two flag bits that announce a third coordinate. *)
Definition sample_supports_z_or_m : Z := 6.

(** A MultiLineString whose only member cannot be fetched. *)
Definition multi_line_unfetchable : GEOSGeometry :=
  Geom GEOS_MULTILINESTRING 1 [None] [].

Definition sample_broken_collection : VALUE :=
  TypedData (Module_ "GeometryCollectionImpl")
            (Some (Ptr 0 collection_broken_child)) sample_factory Qnil.

Definition elements_one_polygon : list VALUE :=
  [sample_feature Qnil 0 square_west].



Definition sample_one_point_collection : VALUE :=
  TypedData (Module_ "GeometryCollectionImpl") (Some (Ptr 1 collection_one_point))
            sample_factory Qnil.

(** A later state, in which the collection built from two sample elements
    exists at address 5. *)
Definition sample_world_later : World := MkWorld {[0%nat; 1%nat; 5%nat]} 9 [] [].

(** ** Proof support *)

(** Remove from the context the collaborators the goal does not mention, so
    that the solvers do not make a lemma depend on them. *)
Ltac drop_collaborators :=
  repeat match goal with
         | f : VALUE → VALUE → VALUE → option (GEOSGeometry * VALUE) |- _ => clear f
         | f : Z → list GEOSGeometry → bool |- _ => clear f
         | f : GEOSGeometry → GEOSGeometry → option string |- _ => clear f
         | f : GEOSGeometry → VALUE |- _ => clear f
         | f : GEOSGeometry → GEOSGeometry → Z → VALUE |- _ => clear f
         end.

(** ** The comparison is well defined: the fuel it is given suffices *)

Lemma depth_part (g c : GEOSGeometry) :
  Some c ∈ geom_parts g → (depth c < depth g)%nat.
Proof.
  destruct g as [t n ps cs]; simpl. intros Hin.
  apply Nat.lt_succ_r.
  induction ps as [|p ps IH]; [by apply elem_of_nil in Hin|].
  apply elem_of_cons in Hin as [<-|Hin]; simpl.
  - apply Nat.le_max_l.
  - etransitivity; [exact (IH Hin)|apply Nat.le_max_r].
Qed.

Lemma GEOSGetGeometryN_r_part (g c : GEOSGeometry) (i : Z) :
  GEOSGetGeometryN_r g i = Some c → Some c ∈ geom_parts g.
Proof.
  unfold GEOSGetGeometryN_r. destruct (i <? 0); [done|].
  destruct (geom_parts g !! Z.to_nat i) as [p|] eqn:E; [|done].
  intros ->. by eapply list_elem_of_lookup_2.
Qed.

Lemma eql_iteration_ext recur recur' (g1 g2 : GEOSGeometry) check_z i :
  (∀ c x, Some c ∈ geom_parts g1 → recur (Some c) x check_z = recur' (Some c) x check_z) →
  eql_iteration recur g1 g2 check_z i = eql_iteration recur' g1 g2 check_z i.
Proof.
  intros Hagree. unfold eql_iteration.
  destruct (GEOSGetGeometryN_r g1 i) as [s1|] eqn:E1; [|done].
  destruct (GEOSGetGeometryN_r g2 i) as [s2|]; [|done].
  rewrite (Hagree s1 (Some s2)); [done|].
  by eapply GEOSGetGeometryN_r_part.
Qed.

Lemma eql_loop_ext recur recur' (g1 g2 : GEOSGeometry) check_z steps i result :
  (∀ c x, Some c ∈ geom_parts g1 → recur (Some c) x check_z = recur' (Some c) x check_z) →
  eql_loop recur g1 g2 check_z steps i result
  = eql_loop recur' g1 g2 check_z steps i result.
Proof.
  intros Hagree. revert i result.
  induction steps as [|steps IH]; intros i result; simpl; [done|].
  rewrite (eql_iteration_ext recur recur') by done.
  destruct (eql_iteration recur' g1 g2 check_z i) as [r [|]]; [done|apply IH].
Qed.

Lemma eql_body_ext recur recur' (g1 : GEOSGeometry) geom2 check_z :
  (∀ c x, Some c ∈ geom_parts g1 → recur (Some c) x check_z = recur' (Some c) x check_z) →
  eql_body recur (Some g1) geom2 check_z = eql_body recur' (Some g1) geom2 check_z.
Proof.
  intros Hagree. unfold eql_body. destruct geom2 as [g2|]; [|done].
  by rewrite (eql_loop_ext recur recur').
Qed.

Lemma eql_fuel_enough (fuel : nat) :
  ∀ (g1 : GEOSGeometry) geom2 check_z,
    (depth g1 ≤ fuel)%nat →
    eql_fuel fuel (Some g1) geom2 check_z
    = eql_fuel (depth g1) (Some g1) geom2 check_z.
Proof.
  induction fuel as [fuel IH] using lt_wf_ind.
  intros g1 geom2 check_z Hle.
  destruct fuel as [|f]; [destruct g1; simpl in Hle; lia|].
  destruct (depth g1) as [|d] eqn:Hd; [destruct g1; discriminate|].
  simpl. apply eql_body_ext. intros c x Hc.
  pose proof (depth_part g1 c Hc) as Hlt.
  rewrite (IH f) by lia. rewrite (IH d) by lia. done.
Qed.

(** The function satisfies the recursive equation of the source. *)
Lemma rgeo_geos_geometry_collections_eql_unfold geom1 geom2 check_z :
  rgeo_geos_geometry_collections_eql geom1 geom2 check_z
  = eql_body rgeo_geos_geometry_collections_eql geom1 geom2 check_z.
Proof.
  destruct geom1 as [g1|]; [|done].
  unfold rgeo_geos_geometry_collections_eql at 1.
  destruct (depth g1) as [|d] eqn:Hd; [destruct g1; discriminate|].
  simpl. apply eql_body_ext. intros c x Hc.
  pose proof (depth_part g1 c Hc) as Hlt.
  unfold rgeo_geos_geometry_collections_eql. apply eql_fuel_enough. lia.
Qed.

(** ** Structural comparison of collections *)

Lemma eql_iteration_leave recur (g1 g2 : GEOSGeometry) check_z i :
  snd (eql_iteration recur g1 g2 check_z i)
  = negb (RTEST (fst (eql_iteration recur g1 g2 check_z i))).
Proof.
  unfold eql_iteration.
  destruct (GEOSGetGeometryN_r g1 i) as [s1|]; [|done].
  destruct (GEOSGetGeometryN_r g2 i) as [s2|]; [|done].
  destruct (_ && _); [|done].
  destruct (_ =? _); [|done].
  match goal with |- context [negb (RTEST ?r)] => destruct (RTEST r) eqn:E end;
    simpl; by rewrite E.
Qed.

Lemma eql_loop_all_true recur (g1 g2 : GEOSGeometry) check_z (steps : nat) i result :
  result = Qtrue →
  (∀ k, i ≤ k < i + Z.of_nat steps →
        fst (eql_iteration recur g1 g2 check_z k) = Qtrue) →
  eql_loop recur g1 g2 check_z steps i result = Qtrue.
Proof.
  revert i result. induction steps as [|steps IH]; intros i result Hr Hall; [done|].
  simpl. pose proof (Hall i ltac:(lia)) as Hi.
  destruct (eql_iteration recur g1 g2 check_z i) as [r leave] eqn:E.
  simpl in Hi; subst r.
  assert (leave = false) as ->.
  { pose proof (eql_iteration_leave recur g1 g2 check_z i) as Hl.
    rewrite E in Hl. simpl in Hl. done. }
  apply IH; [done|]. intros k Hk. apply Hall. lia.
Qed.



Lemma eql_loop_three_valued recur (g1 g2 : GEOSGeometry) check_z (steps : nat) i result :
  (∀ k, three_valued (fst (eql_iteration recur g1 g2 check_z k))) →
  three_valued result →
  three_valued (eql_loop recur g1 g2 check_z steps i result).
Proof.
  intros H3. revert i result.
  induction steps as [|steps IH]; intros i result Hr; [done|].
  simpl. pose proof (H3 i) as Hi.
  destruct (eql_iteration recur g1 g2 check_z i) as [r [|]]; [done|by apply IH].
Qed.

Lemma eql_iteration_three_valued recur (g1 g2 : GEOSGeometry) check_z i :
  (∀ a b z, three_valued (rgeo_geos_coordseqs_eql a b z)) →
  (∀ a b z, three_valued (rgeo_geos_polygons_eql a b z)) →
  (∀ a b z, three_valued (recur a b z)) →
  three_valued (fst (eql_iteration recur g1 g2 check_z i)).
Proof.
  intros Hc Hp Hr. unfold eql_iteration, three_valued.
  destruct (GEOSGetGeometryN_r g1 i) as [s1|]; [|auto].
  destruct (GEOSGetGeometryN_r g2 i) as [s2|]; [|auto].
  destruct (_ && _); [|auto].
  destruct (_ =? _); [|auto].
  match goal with |- context [negb (RTEST ?r)] =>
    assert (three_valued r) as H3; [|by destruct (negb (RTEST r))] end.
  destruct (_ || _); [apply Hc|].
  destruct (_ =? _); [apply Hp|].
  destruct (_ || _); [apply Hr|]. unfold three_valued; auto.
Qed.

Lemma eql_fuel_three_valued (fuel : nat) geom1 geom2 check_z :
  (∀ a b z, three_valued (rgeo_geos_coordseqs_eql a b z)) →
  (∀ a b z, three_valued (rgeo_geos_polygons_eql a b z)) →
  three_valued (eql_fuel fuel geom1 geom2 check_z).
Proof.
  intros Hc Hp. revert geom1 geom2 check_z.
  induction fuel as [|fuel IH]; intros geom1 geom2 check_z; simpl.
  { unfold three_valued; auto. }
  unfold eql_body.
  destruct geom1 as [g1|]; [|unfold three_valued; auto].
  destruct geom2 as [g2|]; [|unfold three_valued; auto].
  destruct (_ && _); [|unfold three_valued; auto].
  destruct (_ =? _); [|unfold three_valued; auto].
  apply eql_loop_three_valued; [|unfold three_valued; auto].
  intros k. by apply eql_iteration_three_valued.
Qed.


(** C3. Two non-null collections whose child counts are both answered
    (non-negative) and differ compare as false, not as indeterminate. *)
Theorem C3_counts_differ_false (g1 g2 : GEOSGeometry) (check_z : Z) :
  0 ≤ GEOSGetNumGeometries_r g1 →
  0 ≤ GEOSGetNumGeometries_r g2 →
  GEOSGetNumGeometries_r g1 ≠ GEOSGetNumGeometries_r g2 →
  rgeo_geos_geometry_collections_eql (Some g1) (Some g2) check_z = Qfalse.
Proof.
  intros H1 H2 Hne.
  rewrite rgeo_geos_geometry_collections_eql_unfold. unfold eql_body.
  destruct (Z.geb_spec (GEOSGetNumGeometries_r g1) 0); [|lia].
  destruct (Z.geb_spec (GEOSGetNumGeometries_r g2) 0); [|lia].
  simpl. by destruct (Z.eqb_spec (GEOSGetNumGeometries_r g1) (GEOSGetNumGeometries_r g2)).
Qed.


(** ** The conversion loop *)

Lemma rb_ary_entry_lookup (array : list VALUE) (i : nat) obj :
  array !! i = Some obj → rb_ary_entry (Ary array) (Z.of_nat i) = obj.
Proof.
  intros E. unfold rb_ary_entry.
  assert ((Z.of_nat i <? 0) = false) as Hnonneg by (apply Z.ltb_ge; lia).
  cbv zeta. rewrite !Hnonneg. by rewrite Nat2Z.id, E.
Qed.

(** The class array of the loop, one step on. *)
Lemma sparse_klasses_step (tags : list VALUE) (klass : VALUE) :
  (let klasses := sparse_klasses tags in
   let klasses :=
     if negb (NIL_P klass) && NIL_P klasses
     then Nat.iter (length tags) (λ ks, rb_ary_push ks Qnil) (Ary [])
     else klasses in
   if negb (NIL_P klasses) then rb_ary_push klasses klass else klasses)
  = sparse_klasses (tags ++ [klass]).
Proof.
  assert (∀ n, Nat.iter n (λ ks, rb_ary_push ks Qnil) (Ary [])
               = Ary (replicate n Qnil)) as Hiter.
  { induction n as [|n IH]; [done|]. simpl. rewrite IH. simpl.
    f_equal. clear IH. induction n as [|n IH]; [done|]. simpl. by rewrite IH. }
  assert (∀ l, forallb NIL_P l = true → l = replicate (length l) Qnil) as Hnil.
  { induction l as [|v l IH]; [done|]. simpl. intros [Hv Hl]%andb_prop.
    destruct v; try done. by rewrite <- IH. }
  unfold sparse_klasses. rewrite forallb_app. simpl.
  destruct (forallb NIL_P tags) eqn:Hall; simpl.
  - destruct (NIL_P klass) eqn:Hk; simpl.
    + done.
    + rewrite Hiter. simpl. by rewrite <- Hnil.
  - rewrite andb_false_r. done.
Qed.

Lemma allocated_S (n : nat) (w : World) g :
  allocated n (snd (engine_alloc g w)) = allocated (S n) w.
Proof.
  drop_collaborators.
  unfold allocated, engine_alloc; simpl. f_equal; [|lia].
  set_solver.
Qed.

Lemma handles_from_cons base g gs :
  handles_from base (g :: gs) = Ptr base g :: handles_from (S base) gs.
Proof.
  unfold handles_from. simpl. rewrite Nat.add_0_r. f_equal.
  apply imap_ext. intros j x _. simpl. f_equal. lia.
Qed.

(** What the conversion loop computes, started at index [i] with the classes
    of the first [i] elements summarised in [tags]. *)
Lemma convert_loop_spec factory cast_type (array : list VALUE) (steps : nat) :
  ∀ (i : nat) geoms tags w,
    (i + steps ≤ length array)%nat →
    length tags = i →
    let pre := converted_prefix factory cast_type (take steps (drop i array)) in
    convert_loop factory cast_type array steps i geoms (sparse_klasses tags) w
    = ((i + length pre)%nat,
       geoms ++ handles_from (fresh w) (fst <$> pre),
       sparse_klasses (tags ++ (snd <$> pre)),
       allocated (length pre) w).
Proof.
  induction steps as [|steps IH]; intros i geoms tags w Hlen Htags; cbv zeta.
  { simpl. rewrite Nat.add_0_r, !app_nil_r. unfold allocated; simpl.
    rewrite Nat.add_0_r, (left_id_L ∅ (∪)). by destruct w. }
  destruct (lookup_lt_is_Some_2 array i ltac:(lia)) as [obj Hobj].
  rewrite (drop_S _ _ _ Hobj). cbn [take converted_prefix convert_loop].
  unfold mbind at 1, M_bind at 1.
  rewrite (rb_ary_entry_lookup _ _ _ Hobj).
  unfold rgeo_convert_to_detached_geos_geometry.
  destruct (convert_element obj factory cast_type) as [[g klass]|] eqn:Hconv.
  - unfold mbind, M_bind, mret, M_ret. cbn [engine_alloc].
    pose proof (sparse_klasses_step tags klass) as Hstep.
    cbv zeta in Hstep. rewrite Htags in Hstep. rewrite Hstep.
    rewrite (IH (S i) _ (tags ++ [klass]));
      [|lia|rewrite length_app; simpl; lia].
    cbn [fmap list_fmap length fst snd]. rewrite handles_from_cons, <- !app_assoc.
    cbn [app fresh].
    rewrite <- (allocated_S _ w g). cbn [engine_alloc snd].
    by rewrite Nat.add_succ_r.
  - unfold mret, M_ret. cbn [length fmap list_fmap].
    rewrite Nat.add_0_r, !app_nil_r. unfold allocated; simpl.
    rewrite Nat.add_0_r, (left_id_L ∅ (∪)). by destruct w.
Qed.

Lemma handles_from_addr base gs :
  addr <$> handles_from base gs = seq base (length gs).
Proof.
  revert base. induction gs as [|g gs IH]; intros base; [done|].
  rewrite handles_from_cons. simpl. by rewrite IH.
Qed.

Lemma handles_from_target base gs :
  target <$> handles_from base gs = gs.
Proof.
  revert base. induction gs as [|g gs IH]; intros base; [done|].
  rewrite handles_from_cons. simpl. by rewrite IH.
Qed.

Lemma handles_from_length base gs : length (handles_from base gs) = length gs.
Proof. unfold handles_from. by rewrite length_imap. Qed.

Lemma destroy_each_spec (geoms : list GEOSGeom_ptr) (w : World) :
  destroy_each geoms w
  = (tt, MkWorld (live w ∖ list_to_set (addr <$> geoms)) (fresh w)
                 (relate_log w) (yielded w)).
Proof.
  revert w. induction geoms as [|g geoms IH]; intros w; simpl.
  - unfold mret, M_ret. destruct w; simpl. f_equal. f_equal. set_solver.
  - unfold mbind, M_bind. simpl. rewrite IH. simpl. do 2 f_equal. set_solver.
Qed.

Lemma allocated_then_released (n : nat) (w : World) :
  world_ok w →
  live (allocated n w) ∖ list_to_set (seq (fresh w) n) = live w.
Proof.
  intros Hok. unfold allocated; simpl.
  apply set_eq. intros a. rewrite elem_of_difference, elem_of_union,
    !elem_of_list_to_set, elem_of_seq.
  split; [naive_solver|]. intros Ha. specialize (Hok a Ha). split; [auto|lia].
Qed.

Lemma converted_prefix_fails_at factory cast_type (array : list VALUE) (k : nat) :
  (∀ j obj, (j < k)%nat → array !! j = Some obj →
            is_Some (convert_element obj factory cast_type)) →
  (∃ obj, array !! k = Some obj ∧ convert_element obj factory cast_type = None) →
  length (converted_prefix factory cast_type array) = k.
Proof.
  revert k. induction array as [|obj array IH]; intros k Hbefore [bad [Hbad Hfail]].
  { done. }
  destruct k as [|k]; simpl in *.
  - simplify_eq. by rewrite Hfail.
  - destruct (Hbefore 0%nat obj ltac:(lia) eq_refl) as [gk ->]. simpl. f_equal.
    apply IH; [|eauto]. intros j o Hj Ho. apply (Hbefore (S j) o); [lia|done].
Qed.

(** What the constructor does with the outcome of the conversion loop when
    it stopped before the end of the array. *)
Lemma create_geometry_collection_rollback module type factory
    (array : list VALUE) (w : World) :
  let pre := converted_prefix factory (cast_type_for type) array in
  length pre ≠ length array →
  create_geometry_collection module type factory array w
  = (Qnil, MkWorld (live (allocated (length pre) w)
                      ∖ list_to_set (seq (fresh w) (length pre)))
                   (fresh w + length pre) (relate_log w) (yielded w)).
Proof.
  intros pre Hne. unfold create_geometry_collection.
  unfold mbind at 1, M_bind at 1.
  pose proof (convert_loop_spec factory (cast_type_for type) array (length array)
                0%nat [] [] w ltac:(simpl; lia) eq_refl) as Hloop.
  cbv zeta in Hloop. rewrite drop_0, firstn_all in Hloop.
  change (sparse_klasses []) with Qnil in Hloop. rewrite Hloop. fold pre.
  cbn [app Nat.add].
  destruct (Nat.eqb_spec (length pre) (length array)) as [|_]; [done|].
  cbn [negb]. unfold mbind, M_bind. rewrite destroy_each_spec.
  unfold mret, M_ret. f_equal.
  rewrite firstn_all2 by (rewrite handles_from_length, length_fmap; lia).
  rewrite handles_from_addr, length_fmap. done.
Qed.

(** C1. If the conversion of the element at index [k] fails while the
    elements before it convert, the loop has stored [k] live handles; the
    constructor destroys every one of them, allocates nothing else (the live
    set is the one it started from, so no collection exists) and returns
    nil. *)
Theorem C1_construction_all_or_nothing module type factory
    (array : list VALUE) (w : World) (k : nat) :
  world_ok w →
  (k < length array)%nat →
  (∀ j obj, (j < k)%nat → array !! j = Some obj →
            is_Some (convert_element obj factory (cast_type_for type))) →
  (∃ obj, array !! k = Some obj
          ∧ convert_element obj factory (cast_type_for type) = None) →
  ∃ geoms klasses w1 w',
    convert_loop factory (cast_type_for type) array (length array) 0%nat [] Qnil w
    = ((k, geoms, klasses), w1)
    ∧ length geoms = k
    ∧ (∀ p, p ∈ geoms → addr p ∈ live w1)
    ∧ create_geometry_collection module type factory array w = (Qnil, w')
    ∧ (∀ p, p ∈ geoms → addr p ∉ live w')
    ∧ live w' = live w.
Proof.
  intros Hok Hk Hbefore Hfail.
  pose proof (converted_prefix_fails_at _ _ _ _ Hbefore Hfail) as Hpre.
  pose proof (convert_loop_spec factory (cast_type_for type) array (length array)
                0%nat [] [] w ltac:(simpl; lia) eq_refl) as Hloop.
  cbv zeta in Hloop. rewrite drop_0, firstn_all in Hloop.
  change (sparse_klasses []) with Qnil in Hloop.
  rewrite Hpre in Hloop. cbn [app Nat.add] in Hloop.
  eexists _, _, _, _. split; [exact Hloop|].
  split; [by rewrite handles_from_length, length_fmap|].
  assert (∀ p, p ∈ handles_from (fresh w)
                 (converted_prefix factory (cast_type_for type) array).*1 →
               addr p ∈ (list_to_set (seq (fresh w) k) : gset nat)) as Haddr.
  { intros p Hp. apply elem_of_list_to_set.
    rewrite <- Hpre, <- (length_fmap fst), <- handles_from_addr.
    by apply list_elem_of_fmap_2. }
  split; [|split; [|split]].
  - intros p Hp. unfold allocated; simpl. apply elem_of_union_l. by apply Haddr.
  - rewrite create_geometry_collection_rollback by lia. rewrite Hpre. done.
  - intros p Hp. simpl. specialize (Haddr p Hp). set_solver.
  - simpl. by apply allocated_then_released.
Qed.

(** ** The MultiPolygon assertions *)


Lemma issue_until_problem_app answer qs1 qs2 :
  issue_until_problem answer (qs1 ++ qs2)
  = let '(issued1, problem1) := issue_until_problem answer qs1 in
    if problem1 =? 0
    then let '(issued2, problem2) := issue_until_problem answer qs2 in
         (issued1 ++ issued2, problem2)
    else (issued1, problem1).
Proof.
  induction qs1 as [|q qs1 IH]; simpl.
  { by destruct (issue_until_problem answer qs2). }
  destruct (Z.eqb_spec (answer q) 0) as [E|E].
  - rewrite IH. destruct (issue_until_problem answer qs1) as [i1 p1].
    destruct (p1 =? 0); [|done].
    by destruct (issue_until_problem answer qs2).
  - by destruct (Z.eqb_spec (answer q) 0).
Qed.

Lemma relate_inner_spec geoms (steps : nat) :
  ∀ (i j : nat) (w : World),
    (i < length geoms)%nat → (j + steps ≤ i)%nat →
    let run := issue_until_problem (query_answer geoms) (row_queries i j steps) in
    relate_inner geoms steps i j 0 w = (snd run, log_queries geoms (fst run) w).
Proof.
  induction steps as [|steps IH]; intros i j w Hi Hj; cbv zeta.
  { simpl. unfold mret, M_ret, log_queries. simpl. rewrite app_nil_r. by destruct w. }
  destruct (lookup_lt_is_Some_2 geoms i Hi) as [igeom Ei].
  destruct (lookup_lt_is_Some_2 geoms j ltac:(lia)) as [jgeom Ej].
  cbn [relate_inner]. rewrite Ei, Ej.
  unfold row_queries. cbn [seq flat_map pair_queries app issue_until_problem].
  assert (∀ pat, query_answer geoms (i, j, pat)
                 = relate_pattern (target igeom) (target jgeom) pat) as Hans.
  { intros pat. unfold query_answer. simpl. by rewrite Ei, Ej. }
  assert (∀ pat, query_entry geoms (i, j, pat) = Some (igeom, jgeom, pat)) as Hent.
  { intros pat. unfold query_entry. simpl. by rewrite Ei, Ej. }
  rewrite !Hans.
  unfold mbind at 1, M_bind at 1. cbn [GEOSRelatePattern_r].
  destruct (Z.eqb_spec (relate_pattern (target igeom) (target jgeom) "2********") 0)
    as [E2|E2]; cbn [negb].
  - unfold mbind at 1, M_bind at 1. cbn [GEOSRelatePattern_r].
    destruct (Z.eqb_spec (relate_pattern (target igeom) (target jgeom) "****1****") 0)
      as [E1|E1]; cbn [negb].
    + rewrite E1. rewrite (IH i (S j)) by (done || lia). cbv zeta.
      fold (row_queries i (S j) steps).
      destruct (issue_until_problem (query_answer geoms) (row_queries i (S j) steps))
        as [issued problem].
      unfold log_queries. cbn [fst snd omap list_omap live fresh relate_log yielded].
      rewrite !Hent. by rewrite <- !app_assoc.
    + unfold mret, M_ret, log_queries.
      cbn [fst snd omap list_omap live fresh relate_log yielded].
      rewrite !Hent. by rewrite <- !app_assoc.
  - unfold mret, M_ret, log_queries.
    cbn [fst snd omap list_omap live fresh relate_log yielded].
    by rewrite !Hent.
Qed.

Lemma log_queries_app geoms qs1 qs2 w :
  log_queries geoms qs2 (log_queries geoms qs1 w) = log_queries geoms (qs1 ++ qs2) w.
Proof. unfold log_queries; simpl. by rewrite omap_app, app_assoc. Qed.

Lemma relate_outer_spec geoms (steps : nat) :
  ∀ (i : nat) (w : World),
    (steps ≠ 0%nat → i + steps ≤ length geoms)%nat →
    let run := issue_until_problem (query_answer geoms)
                 (flat_map (λ i, row_queries i 0 i) (seq i steps)) in
    relate_outer geoms steps i 0 w = (snd run, log_queries geoms (fst run) w).
Proof.
  induction steps as [|steps IH]; intros i w Hi; cbv zeta.
  { simpl. unfold mret, M_ret, log_queries. simpl. rewrite app_nil_r. by destruct w. }
  cbn [relate_outer seq flat_map]. rewrite issue_until_problem_app.
  unfold mbind at 1, M_bind at 1.
  specialize (Hi ltac:(done)).
  rewrite (relate_inner_spec geoms i i 0%nat w) by lia. cbv zeta.
  destruct (issue_until_problem (query_answer geoms) (row_queries i 0 i))
    as [issued1 problem1]. cbn [fst snd].
  destruct (Z.eqb_spec problem1 0) as [->|E]; cbn [negb].
  - rewrite (IH (S i)) by lia. cbv zeta.
    destruct (issue_until_problem (query_answer geoms)
                (flat_map (λ i0, row_queries i0 0 i0) (seq (S i) steps)))
      as [issued2 problem2]. cbn [fst snd]. by rewrite log_queries_app.
  - done.
Qed.

Lemma issue_until_problem_nonzero answer qs :
  snd (issue_until_problem answer qs) ≠ 0 ↔ ∃ q, q ∈ qs ∧ answer q ≠ 0.
Proof.
  induction qs as [|q qs IH]; simpl.
  { split; [done|]. intros [q [Hq _]]. by apply elem_of_nil in Hq. }
  destruct (Z.eqb_spec (answer q) 0) as [E|E].
  - destruct (issue_until_problem answer qs) as [issued problem]; simpl in *.
    rewrite IH. split.
    + intros [x [Hx Hax]]. exists x. split; [by apply elem_of_cons; right|done].
    + intros [x [Hx Hax]]. apply elem_of_cons in Hx as [->|Hx]; [done|eauto].
  - simpl. split; [|done]. intros _. exists q. split; [apply elem_of_cons; by left|done].
Qed.

(** The queries gone through are all the queries when no answer is
    non-zero; otherwise they end with the first query answered non-zero. *)
Lemma issue_until_problem_prefix answer qs :
  let '(issued, problem) := issue_until_problem answer qs in
  (problem = 0 → issued = qs ∧ ∀ q, q ∈ qs → answer q = 0) ∧
  (problem ≠ 0 →
   ∃ before q after,
     qs = before ++ q :: after ∧ issued = before ++ [q]
     ∧ (∀ x, x ∈ before → answer x = 0) ∧ answer q = problem).
Proof.
  induction qs as [|q qs IH]; simpl.
  { split; [|done]. intros _. split; [done|]. intros q Hq. by apply elem_of_nil in Hq. }
  destruct (Z.eqb_spec (answer q) 0) as [E|E].
  - destruct (issue_until_problem answer qs) as [issued problem].
    destruct IH as [IH0 IH1]. split.
    + intros Hp. destruct (IH0 Hp) as [-> Hall]. split; [done|].
      intros x [->|Hx]%elem_of_cons; auto.
    + intros Hp. destruct (IH1 Hp) as (before & x & after & -> & -> & Hb & Hx).
      exists (q :: before), x, after.
      split; [done|split; [done|split; [|done]]].
      intros y [->|Hy]%elem_of_cons; auto.
  - split; [done|]. intros _. exists [], q, qs.
    split; [done|split; [done|split; [|done]]].
    intros x Hx. by apply elem_of_nil in Hx.
Qed.

Lemma elem_of_all_queries (len : nat) (q : nat * nat * string) :
  q ∈ all_queries len ↔
  ∃ i j, (j < i < len)%nat
         ∧ (q = (i, j, "2********"%string) ∨ q = (i, j, "****1****"%string)).
Proof.
  unfold all_queries, row_queries. rewrite list_elem_of_In, in_flat_map. split.
  - intros (i & Hi & Hq). apply in_flat_map in Hq as (j & Hj & Hq).
    apply in_seq in Hi, Hj. exists i, j. split; [lia|].
    simpl in Hq. naive_solver.
  - intros (i & j & Hij & Hq). exists i. split; [apply in_seq; lia|].
    apply in_flat_map. exists j. split; [apply in_seq; lia|].
    simpl. naive_solver.
Qed.

(** The constructor when every element converts. *)
Lemma create_geometry_collection_converted module type factory
    (array : list VALUE) (w : World) :
  let pre := converted_prefix factory (cast_type_for type) array in
  let gs := fst <$> pre in
  let geoms := handles_from (fresh w) gs in
  let c := assembled_collection type gs w in
  let w1 := members_consumed (length gs) w in
  let w2 := snd (engine_alloc (target c) w1) in
  let object :=
    TypedData module (Some c) factory (sparse_klasses (snd <$> pre)) in
  length pre = length array →
  create_geometry_collection module type factory array w
  = if engine_assembles type gs then
      if (type =? GEOS_MULTIPOLYGON) && (Z.land (factory_flags factory) 1 =? 0)
      then
        let run := issue_until_problem (query_answer geoms)
                     (all_queries (length array)) in
        if negb (snd run =? 0)
        then (Qnil, snd (GEOSGeom_destroy_r c (log_queries geoms (fst run) w2)))
        else (object, log_queries geoms (fst run) w2)
      else (object, w2)
    else (Qnil, w1).
Proof.
  intros pre gs geoms c w1 w2 object Hall.
  assert (length gs = length array) as Hgs by (unfold gs; by rewrite length_fmap).
  assert (addr <$> geoms = seq (fresh w) (length gs)) as Haddr
    by apply handles_from_addr.
  assert (target <$> geoms = gs) as Htarget by apply handles_from_target.
  assert ((λ m, Some (target m)) <$> geoms = (λ g, Some g) <$> gs) as Hparts.
  { rewrite <- Htarget. by rewrite <- list_fmap_compose. }
  assert (take (length array) geoms = geoms) as Htake.
  { apply firstn_all2. unfold geoms. rewrite handles_from_length. lia. }
  assert (length geoms = length array) as Hgeoms.
  { unfold geoms. rewrite handles_from_length. lia. }
  unfold create_geometry_collection.
  unfold mbind at 1, M_bind at 1.
  pose proof (convert_loop_spec factory (cast_type_for type) array (length array)
                0%nat [] [] w ltac:(simpl; lia) eq_refl) as Hloop.
  cbv zeta in Hloop. rewrite drop_0, firstn_all in Hloop.
  change (sparse_klasses []) with Qnil in Hloop. rewrite Hloop. fold pre gs geoms.
  cbn [app Nat.add]. rewrite Hall, Nat.eqb_refl. cbn [negb].
  unfold mbind at 1, M_bind at 1.
  unfold GEOSGeom_createCollection_r.
  rewrite Htake, Haddr, Htarget, Hparts.
  change (MkWorld (live (allocated (length array) w)
                     ∖ list_to_set (seq (fresh w) (length gs)))
                  (fresh (allocated (length array) w))
                  (relate_log (allocated (length array) w))
                  (yielded (allocated (length array) w)))
    with (MkWorld (live (allocated (length array) w)
                     ∖ list_to_set (seq (fresh w) (length gs)))
                  (fresh w + length array) (relate_log w) (yielded w)).
  rewrite <- Hgs. fold (members_consumed (length gs) w). fold w1.
  destruct (engine_assembles type gs); [|done].
  unfold mbind at 1, M_bind at 1, mret at 1, M_ret at 1.
  change (engine_alloc (Geom type (Z.of_nat (length gs)) ((λ g, Some g) <$> gs) []) w1)
    with (c, w2).
  destruct ((type =? GEOS_MULTIPOLYGON) && (Z.land (factory_flags factory) 1 =? 0)).
  - unfold mbind at 1 2, M_bind at 1 2.
    rewrite (relate_outer_spec geoms (length gs - 1) 1 w2) by lia. cbv zeta.
    fold (all_queries (length gs)).
    destruct (issue_until_problem (query_answer geoms) (all_queries (length gs)))
      as [issued problem]. cbn [fst snd].
    destruct (negb (problem =? 0)); done.
  - done.
Qed.

Lemma handles_from_lookup base gs (i : nat) :
  handles_from base gs !! i = (λ g, Ptr (base + i) g) <$> gs !! i.
Proof. unfold handles_from. by rewrite list_lookup_imap. Qed.

Lemma query_answer_handles base gs (i j : nat) pat :
  query_answer (handles_from base gs) (i, j, pat)
  = match gs !! i, gs !! j with
    | Some gi, Some gj => relate_pattern gi gj pat
    | _, _ => 0
    end.
Proof.
  unfold query_answer. cbn [fst snd]. rewrite !handles_from_lookup.
  destruct (gs !! i); [|done]. by destruct (gs !! j).
Qed.

(** Some query of a run over the members is answered non-zero exactly when
    some pair (i, j), i > j, is flagged. *)
Lemma flagged_query_iff base gs :
  (∃ q, q ∈ all_queries (length gs) ∧ query_answer (handles_from base gs) q ≠ 0)
  ↔ ∃ i j gi gj, (j < i)%nat ∧ gs !! i = Some gi ∧ gs !! j = Some gj
                 ∧ pair_flagged gi gj.
Proof.
  split.
  - intros (q & Hq & Hans). apply elem_of_all_queries in Hq as (i & j & Hij & Hq).
    destruct (lookup_lt_is_Some_2 gs i ltac:(lia)) as [gi Ei].
    destruct (lookup_lt_is_Some_2 gs j ltac:(lia)) as [gj Ej].
    exists i, j, gi, gj. split; [lia|]. split; [done|]. split; [done|].
    destruct Hq as [-> | ->]; rewrite query_answer_handles, Ei, Ej in Hans;
      [by left|by right].
  - intros (i & j & gi & gj & Hij & Ei & Ej & [H2|H1]).
    + exists (i, j, "2********"%string). split.
      * apply elem_of_all_queries. exists i, j. split; [|by left].
        apply lookup_lt_Some in Ei. lia.
      * by rewrite query_answer_handles, Ei, Ej.
    + exists (i, j, "****1****"%string). split.
      * apply elem_of_all_queries. exists i, j. split; [|by right].
        apply lookup_lt_Some in Ei. lia.
      * by rewrite query_answer_handles, Ei, Ej.
Qed.

(** C2 (amended). A MultiPolygon is being built, the validation flag (bit 0)
    is clear, every element converts and the engine assembles the
    collection. Then the constructor destroys the collection and returns nil
    exactly when one of the two relate calls answers non-zero (a match, or
    the engine's failure code) for some pair (i, j) with i > j. The relate
    calls are issued rows ascending, columns ascending within a row, and
    stop with the first non-zero answer. For another kind, or with the flag
    set, no relate call is issued and the same elements yield the
    collection. *)
Theorem C2_multipolygon_assertions module type factory
    (array : list VALUE) (w w' : World) (result : VALUE) :
  let pre := converted_prefix factory (cast_type_for type) array in
  let gs := fst <$> pre in
  let geoms := handles_from (fresh w) gs in
  let c := assembled_collection type gs w in
  let object := TypedData module (Some c) factory (sparse_klasses (snd <$> pre)) in
  length pre = length array →
  engine_assembles type gs = true →
  create_geometry_collection module type factory array w = (result, w') →
  (type = GEOS_MULTIPOLYGON ∧ Z.land (factory_flags factory) 1 = 0 →
   (result = Qnil ↔
    ∃ i j gi gj, (j < i)%nat ∧ gs !! i = Some gi ∧ gs !! j = Some gj
                 ∧ pair_flagged gi gj)
   ∧ (result = Qnil → addr c ∉ live w')
   ∧ (result ≠ Qnil → result = object ∧ addr c ∈ live w')
   ∧ ∃ issued,
       relate_log w' = relate_log w ++ omap (query_entry geoms) issued
       ∧ (result ≠ Qnil →
          issued = all_queries (length array)
          ∧ ∀ q, q ∈ issued → query_answer geoms q = 0)
       ∧ (result = Qnil →
          ∃ before q after,
            all_queries (length array) = before ++ q :: after
            ∧ issued = before ++ [q]
            ∧ (∀ x, x ∈ before → query_answer geoms x = 0)
            ∧ query_answer geoms q ≠ 0))
  ∧ (type ≠ GEOS_MULTIPOLYGON ∨ Z.land (factory_flags factory) 1 ≠ 0 →
     result = object ∧ relate_log w' = relate_log w ∧ addr c ∈ live w').
Proof.
  drop_collaborators.
  intros pre gs geoms c object Hall Hasm Hrun.
  assert (length gs = length array) as Hgs by (unfold gs; by rewrite length_fmap).
  rewrite create_geometry_collection_converted in Hrun by done.
  cbv zeta in Hrun. fold pre gs geoms c object in Hrun. rewrite Hasm in Hrun.
  split.
  - intros [-> Hflag]. rewrite Hflag in Hrun.
    change ((GEOS_MULTIPOLYGON =? GEOS_MULTIPOLYGON) && (0 =? 0)) with true in Hrun.
    cbv iota in Hrun.
    pose proof (issue_until_problem_nonzero (query_answer geoms)
                  (all_queries (length array))) as Hnz.
    pose proof (issue_until_problem_prefix (query_answer geoms)
                  (all_queries (length array))) as Hpre.
    pose proof (flagged_query_iff (fresh w) gs) as Hflagged.
    rewrite Hgs in Hflagged. fold geoms in Hflagged.
    rewrite Hflagged in Hnz. clear Hflagged.
    destruct (issue_until_problem (query_answer geoms) (all_queries (length array)))
      as [issued problem]. cbn [fst snd] in *.
    destruct Hpre as [Hzero Hnonzero].
    destruct (Z.eqb_spec problem 0) as [Hz|Hne]; cbn [negb] in Hrun;
      injection Hrun as <- <-.
    + destruct (Hzero Hz) as [-> Hanswers].
      split; [|split; [|split]].
      * split; [done|]. intros Hex. by apply Hnz in Hex.
      * done.
      * intros _. split; [done|]. simpl. set_solver.
      * exists (all_queries (length array)). split; [done|]. split; [done|done].
    + destruct (Hnonzero Hne) as (before & q & after & Hq & -> & Hbefore & Hq').
      split; [|split; [|split]].
      * split; [|done]. intros _. by apply Hnz.
      * intros _. simpl. set_solver.
      * done.
      * exists (before ++ [q]). split; [done|]. split; [done|].
        intros _. exists before, q, after. rewrite Hq'. done.
  - intros Hother.
    assert ((type =? GEOS_MULTIPOLYGON) && (Z.land (factory_flags factory) 1 =? 0)
            = false) as Hoff.
    { apply andb_false_iff. destruct Hother as [H|H]; [left|right];
        by apply Z.eqb_neq. }
    rewrite Hoff in Hrun. injection Hrun as <- <-.
    split; [done|]. split; [done|]. simpl. set_solver.
Qed.

Lemma matrix_matches_interiors (m : string) :
  String.length m = 9%nat →
  matrix_matches m "2********" = true ↔ interior_interior m = Some "2"%char.
Proof.
  intros Hlen.
  do 10 (destruct m as [|? m]; try discriminate).
  unfold interior_interior. simpl.
  change (dimension_matches a "2") with (Ascii.eqb a "2").
  rewrite andb_true_r, Ascii.eqb_eq. naive_solver.
Qed.

Lemma matrix_matches_boundaries (m : string) :
  String.length m = 9%nat →
  matrix_matches m "****1****" = true ↔ boundary_boundary m = Some "1"%char.
Proof.
  intros Hlen.
  do 10 (destruct m as [|? m]; try discriminate).
  unfold boundary_boundary. simpl.
  match goal with
  | |- context [dimension_matches ?c "1"] =>
      change (dimension_matches c "1") with (Ascii.eqb c "1")
  end.
  rewrite andb_true_r, Ascii.eqb_eq. naive_solver.
Qed.

(** C7 (amended). Two polygons convert, the engine assembles them, and
    validation is enabled (bit 0 of the flags clear). If the matrix of the
    pair has neither a two-dimensional interior-interior entry nor a
    one-dimensional boundary-boundary entry (the polygons touch at most in
    points), the MultiPolygon is constructed. If the boundary-boundary entry
    is one-dimensional (the polygons touch along an edge), the constructor
    returns nil. *)
Theorem C7_boundary_contact_under_validation module factory
    (p0 p1 : VALUE) (g0 g1 : GEOSGeometry) (k0 k1 : VALUE) (m : string)
    (w : World) :
  convert_element p0 factory feature_polygon = Some (g0, k0) →
  convert_element p1 factory feature_polygon = Some (g1, k1) →
  engine_assembles GEOS_MULTIPOLYGON [g0; g1] = true →
  Z.land (factory_flags factory) 1 = 0 →
  relate_matrix g1 g0 = Some m →
  String.length m = 9%nat →
  let result :=
    fst (create_geometry_collection module GEOS_MULTIPOLYGON factory [p0; p1] w) in
  (interior_interior m ≠ Some "2"%char → boundary_boundary m ≠ Some "1"%char →
   result = TypedData module
              (Some (assembled_collection GEOS_MULTIPOLYGON [g0; g1] w))
              factory (sparse_klasses [k0; k1]))
  ∧ (boundary_boundary m = Some "1"%char → result = Qnil).
Proof.
  intros Hp0 Hp1 Hasm Hflag Hm Hlen result.
  assert (converted_prefix factory (cast_type_for GEOS_MULTIPOLYGON) [p0; p1]
          = [(g0, k0); (g1, k1)]) as Hpre.
  { change (cast_type_for GEOS_MULTIPOLYGON) with feature_polygon.
    simpl. by rewrite Hp0, Hp1. }
  unfold result.
  rewrite create_geometry_collection_converted by (by rewrite Hpre).
  cbv zeta. rewrite Hpre. cbn [fmap list_fmap fst snd length].
  rewrite Hasm, Hflag.
  change ((GEOS_MULTIPOLYGON =? GEOS_MULTIPOLYGON) && (0 =? 0)) with true.
  cbv iota.
  change (all_queries 2)
    with [(1%nat, 0%nat, "2********"%string); (1%nat, 0%nat, "****1****"%string)].
  cbn [issue_until_problem]. rewrite !query_answer_handles.
  cbn [lookup list_lookup]. unfold relate_pattern. rewrite Hm.
  pose proof (matrix_matches_interiors m Hlen) as Hi.
  pose proof (matrix_matches_boundaries m Hlen) as Hb.
  destruct (matrix_matches m "2********") eqn:E2;
    destruct (matrix_matches m "****1****") eqn:E1; cbn [Z.eqb negb fst snd].
  - split; [|done]. intros Hno. by destruct Hno; apply Hi.
  - split; [|done]. intros Hno. by destruct Hno; apply Hi.
  - split; [|done]. intros _ Hno. by destruct Hno; apply Hb.
  - split; [done|]. intros Hyes. apply Hb in Hyes. done.
Qed.

Lemma converted_prefix_take factory cast_type (array : list VALUE) (steps : nat) :
  converted_prefix factory cast_type (take steps array)
  = take steps (converted_prefix factory cast_type array).
Proof.
  revert steps. induction array as [|obj array IH]; intros [|steps]; simpl; try done.
  destruct (convert_element obj factory cast_type); [|done]. simpl. by rewrite IH.
Qed.

Lemma converted_prefix_length factory cast_type (array : list VALUE) :
  (length (converted_prefix factory cast_type array) ≤ length array)%nat.
Proof.
  induction array as [|obj array IH]; simpl; [done|].
  destruct (convert_element obj factory cast_type); simpl; lia.
Qed.

(** C8. The class array of the conversion loop after any number of
    iterations is absent (nil) as long as no converted element had a class;
    at the first element with a class it becomes an array holding nil for
    every earlier element followed by that class, and from then on it holds
    one entry per converted element. The object the constructor returns
    carries that array, which is nil when no element had a class and
    otherwise has as many entries as the collection has members. *)
Theorem C8_sparse_class_array module type factory (array : list VALUE) (w : World) :
  let tags := snd <$> converted_prefix factory (cast_type_for type) array in
  (∀ steps, (steps ≤ length array)%nat →
     snd (fst (convert_loop factory (cast_type_for type) array steps 0%nat [] Qnil w))
     = sparse_klasses (take steps tags))
  ∧ (∀ n, forallb NIL_P (take n tags) = true → sparse_klasses (take n tags) = Qnil)
  ∧ (∀ first tag,
       tags !! first = Some tag → NIL_P tag = false →
       (∀ j, (j < first)%nat → tags !! j = Some Qnil) →
       sparse_klasses (take first tags) = Qnil
       ∧ sparse_klasses (take (S first) tags) = Ary (replicate first Qnil ++ [tag])
       ∧ ∀ n, (first < n)%nat → sparse_klasses (take n tags) = Ary (take n tags))
  ∧ (∀ result w',
       create_geometry_collection module type factory array w = (result, w') →
       result ≠ Qnil →
       ∃ c, result = TypedData module (Some c) factory (sparse_klasses tags)
            ∧ GEOSGetNumGeometries_r (target c) = Z.of_nat (length array)
            ∧ length tags = length array).
Proof.
  intros tags. split; [|split; [|split]].
  - intros steps Hsteps.
    pose proof (convert_loop_spec factory (cast_type_for type) array steps
                  0%nat [] [] w ltac:(simpl; lia) eq_refl) as Hloop.
    cbv zeta in Hloop. rewrite drop_0 in Hloop.
    change (sparse_klasses []) with Qnil in Hloop. rewrite Hloop. cbn [fst snd app].
    rewrite converted_prefix_take. unfold tags. by rewrite fmap_take.
  - intros n Hnil. unfold sparse_klasses. by rewrite Hnil.
  - intros first tag Hfirst Htag Hbefore.
    assert (take first tags = replicate first Qnil) as Hhead.
    { apply list_eq. intros j. destruct (decide (j < first)%nat) as [Hj|Hj].
      - rewrite lookup_take_lt by done. rewrite Hbefore by done.
        symmetry. by apply lookup_replicate_2.
      - rewrite lookup_take_ge by lia. symmetry. apply lookup_ge_None.
        rewrite length_replicate. lia. }
    assert (∀ n, (first < n)%nat → forallb NIL_P (take n tags) = false) as Hfalse.
    { intros n Hn. apply not_true_is_false. intros Hall.
      rewrite forallb_forall in Hall.
      specialize (Hall tag). rewrite Htag in Hall.
      assert (In tag (take n tags)) as Hin.
      { apply list_elem_of_In, list_elem_of_lookup. exists first.
        by rewrite lookup_take_lt. }
      specialize (Hall Hin). done. }
    split; [|split].
    + rewrite Hhead. unfold sparse_klasses.
      assert (forallb NIL_P (replicate first Qnil) = true) as ->; [|done].
      clear. induction first; [done|]. simpl. done.
    + unfold sparse_klasses. rewrite (Hfalse (S first)) by lia.
      by rewrite (take_S_r _ _ _ Hfirst), Hhead.
    + intros n Hn. unfold sparse_klasses. by rewrite (Hfalse n).
  - intros result w' Hrun Hres.
    pose proof (converted_prefix_length factory (cast_type_for type) array) as Hle.
    destruct (decide (length (converted_prefix factory (cast_type_for type) array)
                      = length array)) as [Hall|Hsome].
    + rewrite create_geometry_collection_converted in Hrun by done.
      cbv zeta in Hrun.
      exists (assembled_collection type
                (converted_prefix factory (cast_type_for type) array).*1 w).
      split; [|split].
      * repeat case_match; by simplify_eq.
      * simpl. by rewrite length_fmap, Hall.
      * unfold tags. by rewrite length_fmap.
    + rewrite create_geometry_collection_rollback in Hrun by done. by simplify_eq.
Qed.

(** ** Accessors and iteration *)

Lemma collection_of_fetch g children (k : nat) child :
  collection_of g children → children !! k = Some child →
  GEOSGetGeometryN_r g (Z.of_nat k) = Some child.
Proof.
  intros [_ Hparts] Hk. unfold GEOSGetGeometryN_r.
  assert ((Z.of_nat k <? 0) = false) as -> by (apply Z.ltb_ge; lia).
  by rewrite Nat2Z.id, Hparts, list_lookup_fmap, Hk.
Qed.

Lemma each_loop_spec self_data g klasses children (steps : nat) :
  collection_of g children →
  ∀ (k : nat) (w : World),
    (k + steps ≤ length children)%nat →
    each_loop self_data g klasses steps (Z.of_nat k) w
    = (tt, MkWorld (live (allocated steps w)) (fresh w + steps) (relate_log w)
             (yielded w
              ++ imap (λ i c, child_clone (data_factory self_data) klasses
                                (fresh w + i) (Z.of_nat (k + i)) c)
                      (take steps (drop k children)))).
Proof.
  drop_collaborators.
  intros Hcoll. induction steps as [|steps IH]; intros k w Hk.
  { simpl. unfold mret, M_ret, allocated. simpl.
    rewrite app_nil_r, Nat.add_0_r, (left_id_L ∅ (∪)). by destruct w. }
  destruct (lookup_lt_is_Some_2 children k ltac:(lia)) as [child Hchild].
  cbn [each_loop]. rewrite (collection_of_fetch _ _ _ _ Hcoll Hchild).
  rewrite (drop_S _ _ _ Hchild). cbn [take imap].
  unfold mbind at 1, M_bind at 1.
  cbn [rgeo_wrap_geos_geometry_clone]. unfold GEOSGeom_clone_r.
  unfold mbind at 1 2, M_bind at 1 2, mret at 1 2, M_ret at 1 2.
  cbn [engine_alloc rgeo_wrap_geos_geometry].
  cbn [NIL_P negb]. unfold mbind at 1, M_bind at 1. cbn [rb_yield].
  replace (Z.of_nat k + 1) with (Z.of_nat (S k)) by lia.
  rewrite (IH (S k)) by lia. cbn [fresh yielded relate_log].
  f_equal. f_equal; [|lia|].
  - unfold allocated. cbn [live fresh]. cbn [seq list_to_set]. set_solver.
  - rewrite <- app_assoc. cbn [app]. do 2 f_equal.
    + unfold child_clone. by rewrite !Nat.add_0_r.
    + apply imap_ext. intros i c _. cbn. f_equal; [lia|f_equal; lia].
Qed.

(** C9. On a collection of [n] members the iterator passes to the block,
    in ascending index order and with no other value in between, one object
    per member, each wrapping a newly allocated copy of that member; it
    makes [n] allocations, visits nothing when [n] is zero, never stops
    before the last member, and returns the receiver. *)
Theorem C9_each_visits_every_child klass self_ptr factory klasses
    (children : list GEOSGeometry) (w : World) :
  collection_of (target self_ptr) children →
  let self := TypedData klass (Some self_ptr) factory klasses in
  let n := length children in
  let visits :=
    imap (λ i c, child_clone factory klasses (fresh w + i) (Z.of_nat i) c)
         children in
  method_geometry_collection_each self w
  = (self, MkWorld (live (allocated n w)) (fresh w + n) (relate_log w)
             (yielded w ++ visits))
  ∧ length visits = n
  ∧ (n = 0%nat → visits = []).
Proof.
  intros Hcoll self n visits. split; [|split].
  - unfold method_geometry_collection_each.
    cbn [self RGEO_GEOMETRY_DATA_PTR data_geom data_klasses].
    destruct Hcoll as [Hnum Hparts]. rewrite Hnum.
    destruct (Z.gtb_spec (Z.of_nat (length children)) 0) as [Hpos|Hzero].
    + unfold mbind, M_bind. rewrite Nat2Z.id.
      rewrite (each_loop_spec _ _ _ children (length children) (conj Hnum Hparts)
                 0%nat w) by (simpl; lia).
      rewrite drop_0, firstn_all. done.
    + assert (children = []) as Hnil by (destruct children; [done|simpl in *; lia]).
      unfold mret, M_ret, visits, n, allocated. rewrite Hnil. simpl.
      rewrite app_nil_r, Nat.add_0_r, (left_id_L ∅ (∪)). by destruct w.
  - unfold visits. by rewrite length_imap.
  - intros Hn. unfold visits. by destruct children.
Qed.

(** What impl_geometry_n computes on a collection of [n] members: with
    negative indices allowed, an index in -n..-1 is moved up by n; an index
    that is then in 0..n-1 yields a copy of that member under its stored
    class; any other index yields nil and allocates nothing. *)
Lemma impl_geometry_n_spec klass self_ptr factory klasses
    (children : list GEOSGeometry) (i allow_negatives : Z) (w : World) :
  collection_of (target self_ptr) children →
  let self := TypedData klass (Some self_ptr) factory klasses in
  let n := Z.of_nat (length children) in
  let index := if (i <? 0) && negb (allow_negatives =? 0) then i + n else i in
  impl_geometry_n self i allow_negatives w
  = match children !! Z.to_nat index with
    | Some child =>
        if (0 <=? index)
        then (child_clone factory klasses (fresh w) index child, allocated 1 w)
        else (Qnil, w)
    | None => (Qnil, w)
    end.
Proof.
  drop_collaborators.
  intros Hcoll self n index. unfold impl_geometry_n.
  cbn [self RGEO_GEOMETRY_DATA_PTR data_geom data_klasses data_factory].
  pose proof Hcoll as [Hnum Hparts]. rewrite Hnum. fold n.
  assert (∀ k child, 0 ≤ k → children !! Z.to_nat k = Some child →
            rgeo_wrap_geos_geometry_clone factory
              (GEOSGetGeometryN_r (target self_ptr) k)
              (if NIL_P klasses then Qnil else rb_ary_entry klasses k) w
            = (child_clone factory klasses (fresh w) k child, allocated 1 w))
    as Hclone.
  { intros k child Hk Hchild.
    rewrite <- (Z2Nat.id k) at 1 by done.
    rewrite (collection_of_fetch _ _ _ _ Hcoll Hchild).
    unfold rgeo_wrap_geos_geometry_clone, GEOSGeom_clone_r, mbind, M_bind,
      mret, M_ret, child_clone, allocated. simpl.
    f_equal. f_equal; [set_solver|lia]. }
  assert (∀ k, 0 ≤ k < n → is_Some (children !! Z.to_nat k)) as Hin.
  { intros k Hk. apply lookup_lt_is_Some_2. unfold n in Hk. lia. }
  assert (∀ k, n ≤ k → children !! Z.to_nat k = None) as Hout.
  { intros k Hk. apply lookup_ge_None. unfold n in Hk. lia. }
  unfold index.
  destruct (Z.eqb_spec allow_negatives 0) as [Hallow|Hallow]; cbn [negb orb].
  - rewrite andb_false_r.
    destruct (Z.ltb_spec i 0) as [Hneg|Hpos].
    + destruct (Z.geb_spec i 0); [lia|]. unfold mret, M_ret.
      destruct (children !! Z.to_nat i); [|done].
      by destruct (Z.leb_spec 0 i); [lia|].
    + destruct (Z.geb_spec i 0); [|lia]. cbn [andb].
      destruct (Z.ltb_spec i n) as [Hlt|Hge].
      * destruct (Hin i ltac:(lia)) as [child Hchild]. rewrite Hchild.
        destruct (Z.leb_spec 0 i); [|lia]. by apply Hclone.
      * by rewrite (Hout i Hge).
  - rewrite andb_true_r.
    destruct (Z.ltb_spec i 0) as [Hneg|Hpos].
    + destruct (Z.geb_spec (i + n) 0) as [Hnorm|Hnorm]; cbn [andb].
      * destruct (Z.ltb_spec (i + n) n); [|lia].
        destruct (Hin (i + n) ltac:(lia)) as [child Hchild]. rewrite Hchild.
        destruct (Z.leb_spec 0 (i + n)); [|lia]. by apply Hclone.
      * unfold mret, M_ret. destruct (children !! Z.to_nat (i + n)); [|done].
        by destruct (Z.leb_spec 0 (i + n)); [lia|].
    + destruct (Z.geb_spec i 0); [|lia]. cbn [andb].
      destruct (Z.ltb_spec i n) as [Hlt|Hge].
      * destruct (Hin i ltac:(lia)) as [child Hchild]. rewrite Hchild.
        destruct (Z.leb_spec 0 i); [|lia]. by apply Hclone.
      * by rewrite (Hout i Hge).
Qed.

(** With negative indices refused, a negative index yields nil at once. *)
Lemma impl_geometry_n_refuses_negative (self : VALUE) (i : Z) (w : World) :
  i < 0 → impl_geometry_n self i 0 w = (Qnil, w).
Proof.
  intros Hneg. unfold impl_geometry_n.
  destruct (data_geom (RGEO_GEOMETRY_DATA_PTR self)); [|done].
  change (0 =? 0) with true. cbn [negb orb].
  by destruct (Z.geb_spec i 0); [lia|].
Qed.

(** On a non-negative index the flag makes no difference. *)
Lemma impl_geometry_n_nonnegative (self : VALUE) (i : Z) (w : World) :
  0 ≤ i → impl_geometry_n self i 0 w = impl_geometry_n self i 1 w.
Proof.
  intros Hpos. unfold impl_geometry_n.
  destruct (data_geom (RGEO_GEOMETRY_DATA_PTR self)); [|done].
  by destruct (Z.geb_spec i 0); [|lia].
Qed.

(** With negative indices allowed, the indices [i] and [i - n] designate the
    same member of a collection of [n] members. *)
Lemma impl_geometry_n_negative_form klass self_ptr factory klasses
    (children : list GEOSGeometry) (i : Z) (w : World) :
  collection_of (target self_ptr) children →
  0 ≤ i < Z.of_nat (length children) →
  let self := TypedData klass (Some self_ptr) factory klasses in
  impl_geometry_n self (i - Z.of_nat (length children)) 1 w
  = impl_geometry_n self i 1 w.
Proof.
  intros Hcoll Hi self. unfold self.
  rewrite !(impl_geometry_n_spec _ _ _ _ children) by done. cbv zeta.
  change (1 =? 0) with false. cbn [negb]. rewrite !andb_true_r.
  destruct (Z.ltb_spec (i - Z.of_nat (length children)) 0); [|lia].
  destruct (Z.ltb_spec i 0); [lia|].
  by replace (i - Z.of_nat (length children) + Z.of_nat (length children))
    with i by lia.
Qed.

(** C6. The body of the method behind [[]] evaluates impl_geometry_n with
    negative indices allowed and then ends without a return statement:
    whatever the receiver and the index, no value is returned. *)
Theorem C6_brackets_returns_no_value (self : VALUE) (n : Z) (w : World) :
  fst (method_geometry_collection_brackets self n w) = NoReturnStatement
  ∧ snd (method_geometry_collection_brackets self n w)
    = snd (impl_geometry_n self n 1 w).
Proof.
  unfold method_geometry_collection_brackets, mbind, M_bind, mret, M_ret.
  by destruct (impl_geometry_n self n 1 w).
Qed.

(** C10. The body of geometry_n evaluates impl_geometry_n with negative
    indices refused and then ends without a return statement: no value is
    returned, for negative and non-negative indices alike. *)
Theorem C10_geometry_n_returns_no_value (self : VALUE) (n : Z) (w : World) :
  fst (method_geometry_collection_geometry_n self n w) = NoReturnStatement
  ∧ snd (method_geometry_collection_geometry_n self n w)
    = snd (impl_geometry_n self n 0 w).
Proof.
  unfold method_geometry_collection_geometry_n, mbind, M_bind, mret, M_ret.
  by destruct (impl_geometry_n self n 0 w).
Qed.

(** ** MultiLineString: is_closed? *)

Lemma is_closed_loop_spec self_geom (steps : nat) (i : Z) :
  rgeo_is_geos_line_string_closed self_geom = Qtrue →
  is_closed_loop self_geom steps i Qtrue = Qtrue.
Proof.
  intros Hself. revert i. induction steps as [|steps IH]; intros i; simpl; [done|].
  destruct (GEOSGetGeometryN_r self_geom i); [|apply IH].
  rewrite Hself. simpl. apply IH.
Qed.

(** C5. On a MultiLineString whose first member can be fetched, the result
    of is_closed? is the answer of the closedness test for the collection
    itself: the members are fetched but never tested, so the result does
    not depend on whether they are closed. *)
Theorem C5_is_closed_tests_the_collection klass self_ptr factory klasses
    (first : GEOSGeometry) :
  0 < GEOSGetNumGeometries_r (target self_ptr) →
  GEOSGetGeometryN_r (target self_ptr) 0 = Some first →
  method_multi_line_string_is_closed
    (TypedData klass (Some self_ptr) factory klasses)
  = rgeo_is_geos_line_string_closed (target self_ptr).
Proof.
  intros Hlen Hfirst. unfold method_multi_line_string_is_closed.
  cbn [RGEO_GEOMETRY_DATA_PTR data_geom].
  destruct (Z.gtb_spec (GEOSGetNumGeometries_r (target self_ptr)) 0); [|lia].
  destruct (Z.to_nat (GEOSGetNumGeometries_r (target self_ptr))) as [|steps] eqn:E;
    [lia|].
  cbn [is_closed_loop]. rewrite Hfirst.
  destruct (rgeo_is_geos_line_string_closed (target self_ptr)) eqn:Hself;
    try done.
  cbn [VALUE_is_Qtrue negb]. by apply is_closed_loop_spec.
Qed.


(** ** Further properties of the comparison *)

Lemma eql_top_fuel (g1 : GEOSGeometry) geom2 check_z (fuel : nat) :
  (depth g1 ≤ fuel)%nat →
  rgeo_geos_geometry_collections_eql (Some g1) geom2 check_z
  = eql_fuel fuel (Some g1) geom2 check_z.
Proof.
  intros Hle. unfold rgeo_geos_geometry_collections_eql.
  symmetry. by apply eql_fuel_enough.
Qed.

Lemma well_nested_part (g c : GEOSGeometry) (k : nat) :
  well_nested g = true → geom_parts g !! k = Some (Some c) →
  0 ≤ GEOSGeomTypeId_r c ≤ 7
  ∧ (collection_kind (GEOSGeomTypeId_r c) = true → well_nested c = true).
Proof.
  destruct g as [t n ps cs]. cbn [well_nested geom_parts].
  intros [_ Hall]%andb_prop Hk. rewrite forallb_forall in Hall.
  specialize (Hall (Some c)). cbv beta iota in Hall.
  assert (In (Some c) ps) as Hin.
  { apply list_elem_of_In. by eapply list_elem_of_lookup_2. }
  apply Hall in Hin. apply andb_prop in Hin as [[H0 H7]%andb_prop Hrec].
  split; [lia|]. intros Hkind. by rewrite Hkind in Hrec.
Qed.

Lemma well_nested_fetch (g : GEOSGeometry) (k : Z) :
  well_nested g = true → 0 ≤ k < GEOSGetNumGeometries_r g →
  ∃ c, GEOSGetGeometryN_r g k = Some c
       ∧ geom_parts g !! Z.to_nat k = Some (Some c).
Proof.
  intros Hwn Hk. pose proof Hwn as Hwn'.
  destruct g as [t n ps cs]. cbn [well_nested] in Hwn'.
  apply andb_prop in Hwn' as [Hn Hall]. apply Z.eqb_eq in Hn.
  cbn [GEOSGetNumGeometries_r] in Hk.
  destruct (lookup_lt_is_Some_2 ps (Z.to_nat k) ltac:(lia)) as [p Hp].
  rewrite forallb_forall in Hall. specialize (Hall p).
  assert (In p ps) as Hin.
  { apply list_elem_of_In. by eapply list_elem_of_lookup_2. }
  apply Hall in Hin. destruct p as [c|]; [|done].
  exists c. split; [|done]. unfold GEOSGetGeometryN_r. cbn [geom_parts].
  assert ((k <? 0) = false) as -> by (apply Z.ltb_ge; lia). by rewrite Hp.
Qed.

Lemma eql_reflexive_fuel
    (Hcoord : ∀ a z, rgeo_geos_coordseqs_eql a a z = Qtrue)
    (Hpoly : ∀ a z, rgeo_geos_polygons_eql a a z = Qtrue) (n : nat) :
  ∀ g check_z, (depth g ≤ n)%nat → well_nested g = true →
    rgeo_geos_geometry_collections_eql (Some g) (Some g) check_z = Qtrue.
Proof using Type.
  induction n as [|n IH]; intros g check_z Hdepth Hwn.
  { destruct g; simpl in Hdepth; lia. }
  rewrite rgeo_geos_geometry_collections_eql_unfold. unfold eql_body.
  assert (0 ≤ GEOSGetNumGeometries_r g) as Hcount.
  { destruct g as [t m ps cs]. cbn [well_nested] in Hwn.
    apply andb_prop in Hwn as [Hm _]. apply Z.eqb_eq in Hm. simpl. lia. }
  destruct (Z.geb_spec (GEOSGetNumGeometries_r g) 0); [|lia].
  cbn [andb]. rewrite Z.eqb_refl.
  apply eql_loop_all_true; [done|]. intros k Hk.
  destruct (well_nested_fetch g k Hwn ltac:(lia)) as (c & Hfetch & Hpart).
  destruct (well_nested_part g c _ Hwn Hpart) as [Hkind Hrec].
  unfold eql_iteration. rewrite Hfetch.
  destruct (Z.geb_spec (GEOSGeomTypeId_r c) 0); [|lia].
  cbn [andb]. rewrite Z.eqb_refl.
  assert (Some c ∈ geom_parts g) as Hin by (by eapply list_elem_of_lookup_2).
  pose proof (depth_part g c Hin) as Hlt.
  assert (GEOSGeomTypeId_r c = 0 ∨ GEOSGeomTypeId_r c = 1 ∨ GEOSGeomTypeId_r c = 2
          ∨ GEOSGeomTypeId_r c = 3 ∨ GEOSGeomTypeId_r c = 4 ∨ GEOSGeomTypeId_r c = 5
          ∨ GEOSGeomTypeId_r c = 6 ∨ GEOSGeomTypeId_r c = 7) as Hcases by lia.
  destruct Hcases as [E|[E|[E|[E|[E|[E|[E|E]]]]]]]; rewrite E in Hrec |- *;
    cbn -[rgeo_geos_geometry_collections_eql];
    first [rewrite Hcoord | rewrite Hpoly
          | rewrite IH by (lia || by apply Hrec)];
    done.
Qed.

(** X1. A geometry whose queries are all answered and whose kinds are all
    recognized compares as true with itself, provided the comparators of
    coordinate sequences and of polygons answer true on identical
    arguments. *)
Theorem X1_eql_reflexive (g : GEOSGeometry) (check_z : Z) :
  (∀ a z, rgeo_geos_coordseqs_eql a a z = Qtrue) →
  (∀ a z, rgeo_geos_polygons_eql a a z = Qtrue) →
  well_nested g = true →
  rgeo_geos_geometry_collections_eql (Some g) (Some g) check_z = Qtrue.
Proof.
  intros Hcoord Hpoly Hwn.
  by apply (eql_reflexive_fuel Hcoord Hpoly (depth g)).
Qed.

Lemma eql_iteration_sym recur (g1 g2 : GEOSGeometry) check_z i :
  (∀ a b z, rgeo_geos_coordseqs_eql a b z = rgeo_geos_coordseqs_eql b a z) →
  (∀ a b z, rgeo_geos_polygons_eql a b z = rgeo_geos_polygons_eql b a z) →
  (∀ a b z, recur a b z = recur b a z) →
  eql_iteration recur g1 g2 check_z i = eql_iteration recur g2 g1 check_z i.
Proof.
  intros Hcoord Hpoly Hrecur. unfold eql_iteration.
  destruct (GEOSGetGeometryN_r g1 i) as [s1|], (GEOSGetGeometryN_r g2 i) as [s2|];
    try done.
  rewrite (andb_comm (GEOSGeomTypeId_r s2 >=? 0)), (Z.eqb_sym (GEOSGeomTypeId_r s2)).
  destruct (_ && _); [|done].
  destruct (Z.eqb_spec (GEOSGeomTypeId_r s1) (GEOSGeomTypeId_r s2)) as [E|]; [|done].
  rewrite <- E.
  by rewrite (Hcoord s2 s1), (Hpoly s2 s1), (Hrecur (Some s2) (Some s1)).
Qed.

Lemma eql_loop_sym recur (g1 g2 : GEOSGeometry) check_z steps i result :
  (∀ a b z, rgeo_geos_coordseqs_eql a b z = rgeo_geos_coordseqs_eql b a z) →
  (∀ a b z, rgeo_geos_polygons_eql a b z = rgeo_geos_polygons_eql b a z) →
  (∀ a b z, recur a b z = recur b a z) →
  eql_loop recur g1 g2 check_z steps i result
  = eql_loop recur g2 g1 check_z steps i result.
Proof.
  intros Hcoord Hpoly Hrecur. revert i result.
  induction steps as [|steps IH]; intros i result; simpl; [done|].
  rewrite (eql_iteration_sym recur g1 g2) by done.
  destruct (eql_iteration recur g2 g1 check_z i) as [r [|]]; [done|apply IH].
Qed.

Lemma eql_fuel_sym (fuel : nat) :
  (∀ a b z, rgeo_geos_coordseqs_eql a b z = rgeo_geos_coordseqs_eql b a z) →
  (∀ a b z, rgeo_geos_polygons_eql a b z = rgeo_geos_polygons_eql b a z) →
  ∀ geom1 geom2 check_z,
    eql_fuel fuel geom1 geom2 check_z = eql_fuel fuel geom2 geom1 check_z.
Proof.
  intros Hcoord Hpoly. induction fuel as [|fuel IH]; intros geom1 geom2 check_z;
    simpl; [done|].
  unfold eql_body. destruct geom1 as [g1|], geom2 as [g2|]; try done.
  rewrite (andb_comm (GEOSGetNumGeometries_r g2 >=? 0)),
    (Z.eqb_sym (GEOSGetNumGeometries_r g2)).
  destruct (_ && _); [|done].
  destruct (Z.eqb_spec (GEOSGetNumGeometries_r g1) (GEOSGetNumGeometries_r g2))
    as [E|]; [|done].
  rewrite <- E. by apply eql_loop_sym.
Qed.

(** X2. The comparison does not depend on the order of its two arguments
    when the comparators of coordinate sequences and of polygons do not. *)
Theorem X2_eql_symmetric (geom1 geom2 : option GEOSGeometry) (check_z : Z) :
  (∀ a b z, rgeo_geos_coordseqs_eql a b z = rgeo_geos_coordseqs_eql b a z) →
  (∀ a b z, rgeo_geos_polygons_eql a b z = rgeo_geos_polygons_eql b a z) →
  rgeo_geos_geometry_collections_eql geom1 geom2 check_z
  = rgeo_geos_geometry_collections_eql geom2 geom1 check_z.
Proof.
  intros Hcoord Hpoly.
  destruct geom1 as [g1|], geom2 as [g2|].
  - rewrite (eql_top_fuel g1 _ _ (Nat.max (depth g1) (depth g2))) by lia.
    rewrite (eql_top_fuel g2 _ _ (Nat.max (depth g1) (depth g2))) by lia.
    by apply eql_fuel_sym.
  - rewrite !rgeo_geos_geometry_collections_eql_unfold. done.
  - rewrite !rgeo_geos_geometry_collections_eql_unfold. done.
  - done.
Qed.

(** X3. Whatever the two arguments, the comparison answers true, false or
    nil, provided the comparators of coordinate sequences and of polygons
    do. *)
Theorem X3_eql_three_valued (geom1 geom2 : option GEOSGeometry) (check_z : Z) :
  (∀ a b z, three_valued (rgeo_geos_coordseqs_eql a b z)) →
  (∀ a b z, three_valued (rgeo_geos_polygons_eql a b z)) →
  three_valued (rgeo_geos_geometry_collections_eql geom1 geom2 check_z).
Proof.
  intros Hcoord Hpoly. unfold rgeo_geos_geometry_collections_eql.
  by apply eql_fuel_three_valued.
Qed.

(** X4. The comparison never asks for the kind or the coordinates of its two
    arguments themselves, only for their counts and children: two arguments
    with equal counts and no child to compare are equal whatever their
    kinds, and changing the kind and the coordinates of either argument
    leaves the result unchanged. *)
Theorem X4_eql_ignores_top_level_kind
    (t1 t1' t2 t2' n1 n2 : Z) (ps1 ps2 : list (option GEOSGeometry))
    (cs1 cs1' cs2 cs2' : list (Z * Z)) (check_z : Z) :
  rgeo_geos_geometry_collections_eql
    (Some (Geom t1 n1 ps1 cs1)) (Some (Geom t2 n2 ps2 cs2)) check_z
  = rgeo_geos_geometry_collections_eql
      (Some (Geom t1' n1 ps1 cs1')) (Some (Geom t2' n2 ps2 cs2')) check_z
  ∧ (n1 = 0 → n2 = 0 →
     rgeo_geos_geometry_collections_eql
       (Some (Geom t1 n1 ps1 cs1)) (Some (Geom t2 n2 ps2 cs2)) check_z = Qtrue).
Proof.
  split.
  - rewrite !rgeo_geos_geometry_collections_eql_unfold. unfold eql_body.
    cbn [GEOSGetNumGeometries_r].
    destruct (_ && _); [|done]. destruct (n1 =? n2); [|done].
    generalize (Z.to_nat n1) as steps, 0 as i, Qtrue as result.
    induction steps as [|steps IH]; intros i result; [done|].
    cbn [eql_loop].
    change (eql_iteration rgeo_geos_geometry_collections_eql
              (Geom t1' n1 ps1 cs1') (Geom t2' n2 ps2 cs2') check_z i)
      with (eql_iteration rgeo_geos_geometry_collections_eql
              (Geom t1 n1 ps1 cs1) (Geom t2 n2 ps2 cs2) check_z i).
    destruct (eql_iteration _ _ _ _ _) as [r [|]]; [done|apply IH].
  - intros -> ->. by rewrite rgeo_geos_geometry_collections_eql_unfold.
Qed.

(** ** Further properties of the accessors and of the iterator *)

(** X5. impl_geometry_n on a collection of [n] members: an index in 0..n-1
    yields a newly allocated copy of that member under the class stored for
    it; with negative indices allowed, an index in -n..-1 does what the
    index moved up by n does; any other index, and any negative index when
    negative indices are refused, yields nil and changes nothing. *)
Theorem X5_impl_geometry_n_indexing klass self_ptr factory klasses
    (children : list GEOSGeometry) (i allow_negatives : Z) (w : World) :
  collection_of (target self_ptr) children →
  let self := TypedData klass (Some self_ptr) factory klasses in
  let n := Z.of_nat (length children) in
  (∀ child, 0 ≤ i → children !! Z.to_nat i = Some child →
     impl_geometry_n self i allow_negatives w
     = (child_clone factory klasses (fresh w) i child, allocated 1 w))
  ∧ (- n ≤ i < 0 →
     impl_geometry_n self i 1 w = impl_geometry_n self (i + n) 1 w)
  ∧ (n ≤ i ∨ i < - n → impl_geometry_n self i allow_negatives w = (Qnil, w))
  ∧ (i < 0 → impl_geometry_n self i 0 w = (Qnil, w)).
Proof.
  intros Hcoll self n. subst self n.
  split; [|split; [|split]].
  - intros child Hi Hchild.
    rewrite (impl_geometry_n_spec _ _ _ _ children) by done. cbv zeta.
    destruct (Z.ltb_spec i 0); [lia|]. cbn [andb]. rewrite Hchild.
    by destruct (Z.leb_spec 0 i); [|lia].
  - intros Hi.
    rewrite !(impl_geometry_n_spec _ _ _ _ children) by done. cbv zeta.
    change (1 =? 0) with false. cbn [negb]. rewrite !andb_true_r.
    destruct (Z.ltb_spec i 0); [|lia].
    by destruct (Z.ltb_spec (i + Z.of_nat (length children)) 0); [lia|].
  - intros Hout.
    rewrite (impl_geometry_n_spec _ _ _ _ children) by done. cbv zeta.
    destruct ((i <? 0) && negb (allow_negatives =? 0)) eqn:Hnorm.
    + apply andb_prop in Hnorm as [Hneg%Z.ltb_lt _].
      destruct (children !! Z.to_nat (i + Z.of_nat (length children))) eqn:E;
        [|done].
      destruct (Z.leb_spec 0 (i + Z.of_nat (length children))); [|done].
      apply lookup_lt_Some in E. lia.
    + destruct (children !! Z.to_nat i) eqn:E; [|done].
      destruct (Z.leb_spec 0 i); [|done].
      apply lookup_lt_Some in E. lia.
  - intros Hneg. by apply impl_geometry_n_refuses_negative.
Qed.

Lemma rgeo_wrap_geos_geometry_clone_frame factory geom tag (w : World) :
  match geom with
  | Some g =>
      rgeo_wrap_geos_geometry_clone factory geom tag w
      = (TypedData tag (Some (Ptr (fresh w) g)) factory Qnil, allocated 1 w)
  | None => rgeo_wrap_geos_geometry_clone factory geom tag w = (Qnil, w)
  end.
Proof.
  drop_collaborators.
  destruct geom as [g|]; [|done].
  unfold rgeo_wrap_geos_geometry_clone, GEOSGeom_clone_r, mbind, M_bind,
    mret, M_ret, allocated. simpl. f_equal. f_equal; [set_solver|lia].
Qed.

(** X6. Whatever the receiver, the index and the flag, impl_geometry_n
    either yields nil and leaves the state as it was, or yields an object
    around a newly allocated copy of a child of the receiver, at an index
    within its count, and does nothing else than this one allocation: it
    never hands out the address of the receiver or of anything that was
    live. *)
Theorem X6_impl_geometry_n_frame (self : VALUE) (n allow_negatives : Z) (w : World) :
  world_ok w →
  impl_geometry_n self n allow_negatives w = (Qnil, w)
  ∨ ∃ self_ptr i child,
      data_geom (RGEO_GEOMETRY_DATA_PTR self) = Some self_ptr
      ∧ 0 ≤ i < GEOSGetNumGeometries_r (target self_ptr)
      ∧ GEOSGetGeometryN_r (target self_ptr) i = Some child
      ∧ impl_geometry_n self n allow_negatives w
        = (child_clone (data_factory (RGEO_GEOMETRY_DATA_PTR self))
             (data_klasses (RGEO_GEOMETRY_DATA_PTR self)) (fresh w) i child,
           allocated 1 w)
      ∧ fresh w ∉ live w.
Proof.
  intros Hok.
  assert (fresh w ∉ live w) as Hfresh.
  { intros Hin. specialize (Hok _ Hin). lia. }
  unfold impl_geometry_n.
  destruct (data_geom (RGEO_GEOMETRY_DATA_PTR self)) as [self_ptr|] eqn:Hgeom;
    [|by left].
  destruct (negb (allow_negatives =? 0) || (n >=? 0)); [|by left].
  set (i := if n <? 0 then n + GEOSGetNumGeometries_r (target self_ptr) else n).
  destruct (Z.geb_spec i 0) as [Hlo|]; [|by left]. cbn [andb].
  destruct (Z.ltb_spec i (GEOSGetNumGeometries_r (target self_ptr))) as [Hhi|];
    [|by left].
  pose proof (rgeo_wrap_geos_geometry_clone_frame
                (data_factory (RGEO_GEOMETRY_DATA_PTR self))
                (GEOSGetGeometryN_r (target self_ptr) i)
                (if NIL_P (data_klasses (RGEO_GEOMETRY_DATA_PTR self)) then Qnil
                 else rb_ary_entry (data_klasses (RGEO_GEOMETRY_DATA_PTR self)) i)
                w) as Hclone.
  destruct (GEOSGetGeometryN_r (target self_ptr) i) as [child|] eqn:Hchild.
  - right. exists self_ptr, i, child. repeat split; try done; lia.
  - by left.
Qed.

Lemma length_omap_le {A B : Type} (f : A → option B) (l : list A) :
  (length (omap f l) ≤ length l)%nat.
Proof.
  drop_collaborators.
  induction l as [|x l IH]; [done|]. cbn [omap list_omap].
  destruct (f x); simpl; lia.
Qed.

Lemma fetchable_S_fetch g (from count : nat) c :
  GEOSGetGeometryN_r g (Z.of_nat from) = Some c →
  fetchable g from (S count) = (Z.of_nat from, c) :: fetchable g (S from) count.
Proof. intros E. unfold fetchable. cbn [seq omap list_omap]. by rewrite E. Qed.

Lemma fetchable_S_skip g (from count : nat) :
  GEOSGetGeometryN_r g (Z.of_nat from) = None →
  fetchable g from (S count) = fetchable g (S from) count.
Proof. intros E. unfold fetchable. cbn [seq omap list_omap]. by rewrite E. Qed.

Lemma each_loop_any self_data g klasses (steps : nat) :
  ∀ (k : nat) (w : World),
    let found := fetchable g k steps in
    each_loop self_data g klasses steps (Z.of_nat k) w
    = (tt, MkWorld (live (allocated (length found) w)) (fresh w + length found)
             (relate_log w)
             (yielded w
              ++ imap (λ j ic, child_clone (data_factory self_data) klasses
                                 (fresh w + j) ic.1 ic.2) found)).
Proof.
  drop_collaborators.
  induction steps as [|steps IH]; intros k w; cbv zeta.
  { simpl. unfold mret, M_ret, allocated. simpl.
    rewrite app_nil_r, Nat.add_0_r, (left_id_L ∅ (∪)). by destruct w. }
  cbn [each_loop].
  replace (Z.of_nat k + 1) with (Z.of_nat (S k)) by lia.
  destruct (GEOSGetGeometryN_r g (Z.of_nat k)) as [c|] eqn:Hfetch.
  - rewrite (fetchable_S_fetch _ _ _ _ Hfetch). cbn [length imap fst snd].
    unfold mbind at 1, M_bind at 1.
    cbn [rgeo_wrap_geos_geometry_clone]. unfold GEOSGeom_clone_r.
    unfold mbind at 1 2, M_bind at 1 2, mret at 1 2, M_ret at 1 2.
    cbn [engine_alloc rgeo_wrap_geos_geometry NIL_P negb].
    unfold mbind at 1, M_bind at 1. cbn [rb_yield].
    rewrite (IH (S k)). cbn [fresh yielded relate_log].
    f_equal. f_equal; [|lia|].
    + unfold allocated. cbn [live fresh seq list_to_set]. set_solver.
    + rewrite <- app_assoc. cbn [app]. do 2 f_equal.
      * unfold child_clone. by rewrite Nat.add_0_r.
      * apply imap_ext. intros j ic _. cbn. unfold child_clone.
        do 2 f_equal. f_equal. lia.
  - rewrite (fetchable_S_skip _ _ _ Hfetch).
    unfold mbind at 1, M_bind at 1.
    cbn [rgeo_wrap_geos_geometry_clone]. unfold mret at 1, M_ret at 1.
    cbn [NIL_P negb]. unfold mbind at 1, M_bind at 1, mret at 1, M_ret at 1.
    apply (IH (S k)).
Qed.

(** X7. Whatever the receiver, the iterator passes to the block, in
    ascending index order, a newly allocated copy of every child below the
    count that can be fetched, under the class stored for its index; a child
    that cannot be fetched is passed over and the iteration goes on. Nothing
    is visited when the receiver holds no geometry or its count is not
    positive, and the receiver is returned in every case. *)
Theorem X7_each_skips_unfetchable (self : VALUE) (w : World) :
  let self_data := RGEO_GEOMETRY_DATA_PTR self in
  match data_geom self_data with
  | None => method_geometry_collection_each self w = (self, w)
  | Some self_ptr =>
      let found :=
        fetchable (target self_ptr) 0
          (Z.to_nat (GEOSGetNumGeometries_r (target self_ptr))) in
      method_geometry_collection_each self w
      = (self,
         MkWorld (live (allocated (length found) w)) (fresh w + length found)
           (relate_log w)
           (yielded w
            ++ imap (λ j ic, child_clone (data_factory self_data)
                               (data_klasses self_data) (fresh w + j) ic.1 ic.2)
                    found))
      ∧ (GEOSGetNumGeometries_r (target self_ptr) ≤ 0 → found = [])
      ∧ (length found
         ≤ Z.to_nat (GEOSGetNumGeometries_r (target self_ptr)))%nat
  end.
Proof.
  cbv zeta. unfold method_geometry_collection_each.
  destruct (data_geom (RGEO_GEOMETRY_DATA_PTR self)) as [self_ptr|]; [|done].
  set (len := GEOSGetNumGeometries_r (target self_ptr)).
  split; [|split].
  - destruct (Z.gtb_spec len 0) as [Hpos|Hzero].
    + unfold mbind, M_bind.
      by rewrite (each_loop_any _ _ _ (Z.to_nat len) 0%nat w).
    + assert (Z.to_nat len = 0%nat) as -> by lia.
      unfold mret, M_ret, allocated. simpl.
      rewrite app_nil_r, Nat.add_0_r, (left_id_L ∅ (∪)). by destruct w.
  - intros Hzero. by assert (Z.to_nat len = 0%nat) as -> by lia.
  - unfold fetchable. etransitivity; [apply length_omap_le|].
    by rewrite length_seq.
Qed.

(** ** Further properties of is_closed? *)

Lemma is_closed_loop_any self_geom (steps : nat) :
  ∀ k : nat,
    is_closed_loop self_geom steps (Z.of_nat k) Qtrue
    = match fetchable self_geom k steps with
      | [] => Qtrue
      | _ :: _ => rgeo_is_geos_line_string_closed self_geom
      end.
Proof.
  induction steps as [|steps IH]; intros k; [done|].
  cbn [is_closed_loop].
  replace (Z.of_nat k + 1) with (Z.of_nat (S k)) by lia.
  destruct (GEOSGetGeometryN_r self_geom (Z.of_nat k)) as [c|] eqn:Hfetch.
  - rewrite (fetchable_S_fetch _ _ _ _ Hfetch).
    destruct (rgeo_is_geos_line_string_closed self_geom) eqn:Hself; try done.
    cbn [VALUE_is_Qtrue negb]. rewrite IH.
    destruct (fetchable self_geom (S k) steps); [done|]. by rewrite ?Hself.
  - rewrite (fetchable_S_skip _ _ _ Hfetch). apply IH.
Qed.

(** X8. is_closed? answers nil for a receiver without geometry and true for
    a receiver none of whose members can be fetched, in particular for one
    with no member, without consulting the closedness test; in every other
    case its answer is the answer of the closedness test for the receiver's
    own geometry. *)
Theorem X8_is_closed_cases (self : VALUE) :
  match data_geom (RGEO_GEOMETRY_DATA_PTR self) with
  | None => method_multi_line_string_is_closed self = Qnil
  | Some self_ptr =>
      (GEOSGetNumGeometries_r (target self_ptr) ≤ 0 →
       method_multi_line_string_is_closed self = Qtrue)
      ∧ method_multi_line_string_is_closed self
        = match fetchable (target self_ptr) 0
                  (Z.to_nat (GEOSGetNumGeometries_r (target self_ptr))) with
          | [] => Qtrue
          | _ :: _ => rgeo_is_geos_line_string_closed (target self_ptr)
          end
  end.
Proof.
  unfold method_multi_line_string_is_closed.
  destruct (data_geom (RGEO_GEOMETRY_DATA_PTR self)) as [self_ptr|]; [|done].
  set (len := GEOSGetNumGeometries_r (target self_ptr)).
  split.
  - intros Hzero. by destruct (Z.gtb_spec len 0); [lia|].
  - destruct (Z.gtb_spec len 0) as [Hpos|Hzero].
    + apply (is_closed_loop_any _ _ 0%nat).
    + by assert (Z.to_nat len = 0%nat) as -> by lia.
Qed.

(** ** Further properties of the constructor *)

Lemma members_consumed_live (n : nat) (w : World) :
  world_ok w → live (members_consumed n w) = live w.
Proof. intros Hok. by apply allocated_then_released. Qed.

(** The shape of a successful construction. *)
Lemma create_geometry_collection_success module type factory
    (array : list VALUE) (w w' : World) (result : VALUE) :
  let pre := converted_prefix factory (cast_type_for type) array in
  let gs := fst <$> pre in
  let c := assembled_collection type gs w in
  create_geometry_collection module type factory array w = (result, w') →
  result ≠ Qnil →
  length pre = length array
  ∧ engine_assembles type gs = true
  ∧ result = TypedData module (Some c) factory (sparse_klasses (snd <$> pre))
  ∧ live w' = {[addr c]} ∪ live (members_consumed (length gs) w)
  ∧ fresh w' = S (addr c)
  ∧ yielded w' = yielded w.
Proof.
  intros pre gs c Hrun Hres.
  destruct (decide (length pre = length array)) as [Hall|Hsome].
  - rewrite create_geometry_collection_converted in Hrun by done.
    cbv zeta in Hrun. fold pre gs c in Hrun.
    split; [done|].
    destruct (engine_assembles type gs); [|by simplify_eq].
    split; [done|].
    destruct (_ && _).
    + destruct (issue_until_problem _ _) as [issued problem]. cbn [fst snd] in Hrun.
      destruct (negb (problem =? 0)); simplify_eq. done.
    + simplify_eq. done.
  - rewrite create_geometry_collection_rollback in Hrun by done. by simplify_eq.
Qed.

(** The state left by a construction that failed by the constructor's own
    doing: a conversion failed, or the validation rejected the collection.
    The failure of the assembly, which the constructor leaves to the engine
    (note of lines 137-140), is set apart by the hypothesis. *)
Lemma create_geometry_collection_failure module type factory
    (array : list VALUE) (w w' : World) :
  let pre := converted_prefix factory (cast_type_for type) array in
  world_ok w →
  (length pre = length array → engine_assembles type (fst <$> pre) = true) →
  create_geometry_collection module type factory array w = (Qnil, w') →
  live w' = live w ∧ (fresh w ≤ fresh w')%nat ∧ yielded w' = yielded w.
Proof.
  intros pre Hok Hasm Hrun.
  destruct (decide (length pre = length array)) as [Hall|Hsome].
  - rewrite create_geometry_collection_converted in Hrun by done.
    cbv zeta in Hrun. fold pre in Hrun. rewrite (Hasm Hall) in Hrun.
    assert ((fresh w + length pre.*1)%nat ∉ live w) as Hfresh.
    { intros Hin. specialize (Hok _ Hin). lia. }
    pose proof (members_consumed_live (length pre.*1) w Hok) as Hlive.
    unfold members_consumed, allocated in Hlive. cbn [live fresh] in Hlive.
    destruct (_ && _).
    + destruct (issue_until_problem _ _) as [issued problem].
      cbn [fst snd] in Hrun.
      destruct (negb (problem =? 0)); [|by simplify_eq].
      injection Hrun as <-.
      cbn. rewrite Hlive.
      split; [set_solver|]. split; [lia|done].
    + by simplify_eq.
  - rewrite create_geometry_collection_rollback in Hrun by done.
    injection Hrun as <-. fold pre. cbn.
    split; [by apply allocated_then_released|]. split; [lia|done].
Qed.

(** X9. Started in a state where every live resource lies below the next
    address, and given that the engine assembles the converted elements
    when they all convert, the constructor leaves either no trace among the
    live resources (it returned nil: a conversion failed or the validation
    rejected the collection, and the constructor itself has destroyed
    everything that was allocated) or exactly one new live resource, the
    collection the returned object wraps; it passes nothing to the block,
    and the state it leaves is again of that kind. The failure of the
    assembly is set apart: there the constructor destroys nothing and leaves
    the members to the engine (note of lines 137-140). *)
Theorem X9_create_owns_one_resource_or_none module type factory
    (array : list VALUE) (w w' : World) (result : VALUE) :
  let pre := converted_prefix factory (cast_type_for type) array in
  world_ok w →
  (length pre = length array → engine_assembles type (fst <$> pre) = true) →
  create_geometry_collection module type factory array w = (result, w') →
  world_ok w'
  ∧ yielded w' = yielded w
  ∧ ((result = Qnil ∧ live w' = live w)
     ∨ ∃ c klasses,
         result = TypedData module (Some c) factory klasses
         ∧ (addr c ∉ live w)
         ∧ live w' = {[addr c]} ∪ live w).
Proof.
  intros pre Hok Hasm Hrun.
  assert (result = Qnil ∨ result ≠ Qnil) as [->|Hres]
    by (destruct result; (by left) || (by right)).
  - destruct (create_geometry_collection_failure _ _ _ _ _ _ Hok Hasm Hrun)
      as (Hlive & Hfresh & Hyield).
    split; [|split; [done|by left]].
    intros a Ha. rewrite Hlive in Ha. specialize (Hok _ Ha). lia.
  - destruct (create_geometry_collection_success _ _ _ _ _ _ _ Hrun Hres)
      as (_ & _ & Hobj & Hlive & Hfresh & Hyield).
    rewrite members_consumed_live in Hlive by done.
    set (c := assembled_collection type
                (converted_prefix factory (cast_type_for type) array).*1 w) in *.
    assert (addr c ∉ live w) as Hnew.
    { intros Hin. specialize (Hok _ Hin). simpl in Hok. lia. }
    split; [|split; [done|]].
    + intros a Ha. rewrite Hlive in Ha. rewrite Hfresh.
      apply elem_of_union in Ha as [Ha%elem_of_singleton|Ha]; [lia|].
      specialize (Hok _ Ha). simpl. lia.
    + right. by exists c, (sparse_klasses
                             (converted_prefix factory (cast_type_for type) array).*2).
Qed.

(** The relate log a construction leaves. *)
Lemma create_geometry_collection_relate_log module type factory
    (array : list VALUE) (w : World) :
  ∃ issued before,
    relate_log (snd (create_geometry_collection module type factory array w))
    = relate_log w
      ++ omap (query_entry
                 (handles_from (fresh w)
                    (converted_prefix factory (cast_type_for type) array).*1))
              issued
    ∧ all_queries (length array) = issued ++ before
    ∧ (type ≠ GEOS_MULTIPOLYGON ∨ Z.land (factory_flags factory) 1 ≠ 0 →
       issued = [])
    ∧ (fst (create_geometry_collection module type factory array w) ≠ Qnil →
       type = GEOS_MULTIPOLYGON → Z.land (factory_flags factory) 1 = 0 →
       before = []).
Proof.
  set (pre := converted_prefix factory (cast_type_for type) array).
  destruct (decide (length pre = length array)) as [Hall|Hsome].
  - rewrite create_geometry_collection_converted by done. cbv zeta. fold pre.
    destruct (engine_assembles type pre.*1).
    2:{ exists [], (all_queries (length array)). cbn [fst snd omap list_omap].
        rewrite app_nil_r. repeat split; done. }
    destruct ((type =? GEOS_MULTIPOLYGON) && (Z.land (factory_flags factory) 1 =? 0))
      eqn:Hval.
    2:{ exists [], (all_queries (length array)). cbn [fst snd omap list_omap].
        rewrite app_nil_r. split; [done|]. split; [done|]. split; [done|].
        intros _ Htype Hflag. rewrite Htype, Hflag in Hval. done. }
    apply andb_prop in Hval as [Htype%Z.eqb_eq Hflag%Z.eqb_eq].
    pose proof (issue_until_problem_prefix
                  (query_answer (handles_from (fresh w) pre.*1))
                  (all_queries (length array))) as Hprefix.
    destruct (issue_until_problem _ _) as [issued problem].
    destruct Hprefix as [Hzero Hnonzero]. cbn [fst snd].
    destruct (Z.eqb_spec problem 0) as [Hz|Hnz]; cbn [negb].
    + destruct (Hzero Hz) as [-> _]. exists (all_queries (length array)), [].
      split; [done|]. split; [by rewrite app_nil_r|]. split; [|done].
      intros [?|?]; done.
    + destruct (Hnonzero Hnz) as (front & q & after & Hq & -> & _).
      exists (front ++ [q]), after. split; [done|].
      split; [by rewrite <- app_assoc|]. split; [|done]. intros [?|?]; done.
  - rewrite create_geometry_collection_rollback by done. cbn [fst snd relate_log].
    exists [], (all_queries (length array)). cbn [omap list_omap].
    rewrite app_nil_r. repeat split; done.
Qed.

(** X10. The constructor issues relate queries only for a MultiPolygon built
    by a factory whose validation bit is clear: the class methods of
    GeometryCollection, MultiPoint and MultiLineString never issue one,
    whatever their elements, and neither does that of MultiPolygon when the
    bit is set. *)
Theorem X10_relate_only_for_validated_multipolygon (module factory : VALUE)
    (array : list VALUE) (w : World) :
  relate_log (snd (cmethod_geometry_collection_create module factory array w))
  = relate_log w
  ∧ relate_log (snd (cmethod_multi_point_create module factory array w))
    = relate_log w
  ∧ relate_log (snd (cmethod_multi_line_string_create module factory array w))
    = relate_log w
  ∧ (Z.land (factory_flags factory) 1 ≠ 0 →
     relate_log (snd (cmethod_multi_polygon_create module factory array w))
     = relate_log w).
Proof.
  unfold cmethod_geometry_collection_create, cmethod_multi_point_create,
    cmethod_multi_line_string_create, cmethod_multi_polygon_create.
  repeat split.
  - destruct (create_geometry_collection_relate_log module
                GEOS_GEOMETRYCOLLECTION factory array w)
      as (issued & before & -> & _ & Hnone & _).
    rewrite Hnone by (by left). by rewrite app_nil_r.
  - destruct (create_geometry_collection_relate_log module
                GEOS_MULTIPOINT factory array w)
      as (issued & before & -> & _ & Hnone & _).
    rewrite Hnone by (by left). by rewrite app_nil_r.
  - destruct (create_geometry_collection_relate_log module
                GEOS_MULTILINESTRING factory array w)
      as (issued & before & -> & _ & Hnone & _).
    rewrite Hnone by (by left). by rewrite app_nil_r.
  - intros Hflag.
    destruct (create_geometry_collection_relate_log module
                GEOS_MULTIPOLYGON factory array w)
      as (issued & before & -> & _ & Hnone & _).
    rewrite Hnone by (by right). by rewrite app_nil_r.
Qed.

Lemma all_queries_length (len : nat) :
  length (all_queries len) = (len * (len - 1))%nat.
Proof.
  drop_collaborators.
  assert (∀ i from count, length (row_queries i from count) = (2 * count)%nat)
    as Hrow.
  { intros i from count. unfold row_queries. revert from.
    induction count as [|count IH]; intros from; [done|].
    cbn [seq flat_map]. rewrite length_app, IH. simpl. lia. }
  assert (∀ m, length (flat_map (λ i, row_queries i 0 i) (seq 1 m))
               = (m * (m + 1))%nat) as Hsum.
  { induction m as [|m IH]; [done|].
    rewrite seq_S, flat_map_app, length_app, IH. cbn [flat_map].
    rewrite app_nil_r, Hrow. lia. }
  unfold all_queries. rewrite Hsum. destruct len as [|len]; [done|].
  simpl. rewrite Nat.sub_0_r. lia.
Qed.

(** X11. For [n] elements the constructor issues at most n(n-1) relate
    queries, two for each pair of members; a validated MultiPolygon that is
    constructed has cost exactly n(n-1) of them. *)
Theorem X11_relate_query_count module type factory
    (array : list VALUE) (w : World) :
  let run := create_geometry_collection module type factory array w in
  let n := length array in
  (length (relate_log (snd run)) ≤ length (relate_log w) + n * (n - 1))%nat
  ∧ (fst run ≠ Qnil → type = GEOS_MULTIPOLYGON →
     Z.land (factory_flags factory) 1 = 0 →
     length (relate_log (snd run)) = (length (relate_log w) + n * (n - 1))%nat).
Proof.
  cbv zeta.
  destruct (create_geometry_collection_relate_log module type factory array w)
    as (issued & before & Hlog & Hall & _ & Hfull).
  pose proof (all_queries_length (length array)) as Hcount.
  rewrite Hall, length_app in Hcount.
  split.
  - rewrite Hlog, length_app.
    pose proof (length_omap_le
                  (query_entry (handles_from (fresh w)
                     (converted_prefix factory (cast_type_for type) array).*1))
                  issued).
    lia.
  - intros Hres Htype Hflag. specialize (Hfull Hres Htype Hflag). subst before.
    rewrite app_nil_r in Hall. simpl in Hcount.
    assert (result_is := Hres).
    destruct (create_geometry_collection module type factory array w)
      as [result w'] eqn:Hrun. cbn [fst snd] in *.
    destruct (create_geometry_collection_success _ _ _ _ _ _ _ Hrun Hres)
      as (Hconv & _).
    rewrite Hlog, length_app. f_equal.
    assert (length (omap (query_entry (handles_from (fresh w)
                       (converted_prefix factory (cast_type_for type) array).*1))
                      issued) = length issued) as ->; [|lia].
    assert (∀ q, q ∈ issued →
              is_Some (query_entry (handles_from (fresh w)
                 (converted_prefix factory (cast_type_for type) array).*1) q))
      as Hsome.
    { intros q Hq. rewrite <- Hall in Hq.
      apply elem_of_all_queries in Hq as (i & j & Hij & Hq).
      assert (query_entry (handles_from (fresh w)
                (converted_prefix factory (cast_type_for type) array).*1) (i, j, q.2)
              = query_entry (handles_from (fresh w)
                (converted_prefix factory (cast_type_for type) array).*1) q) as <-.
      { by destruct Hq as [-> | ->]. }
      unfold query_entry. cbn [fst snd]. rewrite !handles_from_lookup.
      destruct (lookup_lt_is_Some_2
                  (converted_prefix factory (cast_type_for type) array).*1 i
                  ltac:(rewrite length_fmap; lia)) as [gi ->].
      destruct (lookup_lt_is_Some_2
                  (converted_prefix factory (cast_type_for type) array).*1 j
                  ltac:(rewrite length_fmap; lia)) as [gj ->].
      by eexists. }
    clear -Hsome. induction issued as [|q issued IH]; [done|].
    cbn [omap list_omap].
    destruct (Hsome q ltac:(by left)) as [e ->]. simpl. f_equal.
    apply IH. intros q' Hq'. apply Hsome. by right.
Qed.

(** X12. With fewer than two elements there is no pair to check: if the
    elements convert and the engine assembles them, the collection is
    constructed whatever its kind, the validation bit and the relate
    answers, and no relate query is issued. An empty array in particular
    yields a collection of count zero without class array, by one
    allocation. *)
Theorem X12_fewer_than_two_elements module type factory
    (array : list VALUE) (w : World) :
  let pre := converted_prefix factory (cast_type_for type) array in
  let run := create_geometry_collection module type factory array w in
  (length array ≤ 1)%nat →
  length pre = length array →
  engine_assembles type (fst <$> pre) = true →
  fst run = TypedData module (Some (assembled_collection type (fst <$> pre) w))
              factory (sparse_klasses (snd <$> pre))
  ∧ relate_log (snd run) = relate_log w
  ∧ (array = [] →
     run = (TypedData module (Some (Ptr (fresh w) (Geom type 0 [] []))) factory Qnil,
            allocated 1 w)).
Proof.
  intros pre run Hshort Hall Hasm. subst run.
  rewrite create_geometry_collection_converted by done. cbv zeta. fold pre.
  rewrite Hasm.
  assert (all_queries (length array) = []) as ->.
  { destruct array as [|? [|? ?]]; [done|done|simpl in Hshort; lia]. }
  cbn [issue_until_problem fst snd Z.eqb negb].
  split; [by destruct (_ && _)|]. split.
  - destruct (_ && _); cbn; by rewrite ?app_nil_r.
  - intros ->.
    assert (∀ log, MkWorld ({[(fresh w + 0)%nat]} ∪ (∅ ∪ live w) ∖ ∅)
                     (S (fresh w + 0)) log (yielded w)
                   = MkWorld ({[fresh w]} ∪ ∅ ∪ live w) (fresh w + 1) log (yielded w))
      as Hworld.
    { intros log. rewrite Nat.add_0_r. f_equal; [set_solver|lia]. }
    unfold assembled_collection, log_queries, allocated.
    destruct (_ && _); cbn; rewrite ?app_nil_r, (Hworld (relate_log w)),
      Nat.add_0_r; done.
Qed.

(** X13. The object a successful construction returns answers
    num_geometries (registered also as size) with the number of elements of
    the array it was built from. *)
Theorem X13_size_of_constructed_collection module type factory
    (array : list VALUE) (w w' : World) (result : VALUE) :
  create_geometry_collection module type factory array w = (result, w') →
  result ≠ Qnil →
  method_geometry_collection_num_geometries result
  = INT2NUM (Z.of_nat (length array)).
Proof.
  intros Hrun Hres.
  destruct (create_geometry_collection_success _ _ _ _ _ _ _ Hrun Hres)
    as (Hall & _ & -> & _).
  cbn. by rewrite length_fmap, Hall.
Qed.

Lemma sparse_klasses_entry (tags : list VALUE) (i : nat) tag :
  tags !! i = Some tag →
  (if NIL_P (sparse_klasses tags) then Qnil
   else rb_ary_entry (sparse_klasses tags) (Z.of_nat i)) = tag.
Proof.
  drop_collaborators.
  intros Hi. unfold sparse_klasses.
  destruct (forallb NIL_P tags) eqn:Hnil; cbn [NIL_P].
  - rewrite forallb_forall in Hnil. specialize (Hnil tag).
    assert (In tag tags) as Hin.
    { apply list_elem_of_In. by eapply list_elem_of_lookup_2. }
    apply Hnil in Hin. by destruct tag.
  - by apply rb_ary_entry_lookup.
Qed.

(** X14. Reading back what was put in: in the object of a successful
    construction, impl_geometry_n at the index [i] of an element yields a
    newly allocated copy of the geometry that element was converted to,
    under the class its conversion reported (nil when it reported none),
    whether or not the class array exists; with negative indices allowed,
    the index [i - n] yields the same. *)
Theorem X14_element_read_back module type factory
    (array : list VALUE) (w w' w'' : World) (result : VALUE)
    (i : nat) (obj : VALUE) (flag : Z) :
  create_geometry_collection module type factory array w = (result, w') →
  result ≠ Qnil →
  array !! i = Some obj →
  ∃ g tag,
    convert_element obj factory (cast_type_for type) = Some (g, tag)
    ∧ impl_geometry_n result (Z.of_nat i) flag w''
      = (TypedData tag (Some (Ptr (fresh w'') g)) factory Qnil, allocated 1 w'')
    ∧ impl_geometry_n result (Z.of_nat i - Z.of_nat (length array)) 1 w''
      = (TypedData tag (Some (Ptr (fresh w'') g)) factory Qnil, allocated 1 w'').
Proof.
  intros Hrun Hres Hobj.
  destruct (create_geometry_collection_success _ _ _ _ _ _ _ Hrun Hres)
    as (Hall & _ & -> & _).
  set (pre := converted_prefix factory (cast_type_for type) array) in *.
  assert (∀ k o, array !! k = Some o →
            ∃ gk, pre !! k = Some gk
                  ∧ convert_element o factory (cast_type_for type) = Some gk)
    as Hconv.
  { subst pre. clear -Hall. revert Hall.
    induction array as [|o' array IH]; intros Hall k o Hk; [done|].
    cbn [converted_prefix] in *.
    destruct (convert_element o' factory (cast_type_for type)) as [gk|] eqn:E;
      [|done].
    destruct k as [|k]; simpl in Hk.
    - simplify_eq. by exists gk.
    - apply (IH ltac:(simpl in Hall; lia) k o Hk). }
  destruct (Hconv i obj Hobj) as ([g tag] & Hpre & Hgk).
  exists g, tag. split; [done|].
  assert (collection_of (target (assembled_collection type pre.*1 w)) pre.*1)
    as Hcoll by (split; reflexivity).
  assert (pre.*1 !! i = Some g) as Hg by (by rewrite list_lookup_fmap, Hpre).
  assert (pre.*2 !! i = Some tag) as Htag by (by rewrite list_lookup_fmap, Hpre).
  assert (i < length array)%nat as Hi by (by eapply lookup_lt_Some).
  assert (∀ allow,
            impl_geometry_n
              (TypedData module (Some (assembled_collection type pre.*1 w)) factory
                 (sparse_klasses pre.*2)) (Z.of_nat i) allow w''
            = (TypedData tag (Some (Ptr (fresh w'') g)) factory Qnil,
               allocated 1 w'')) as Hread.
  { intros allow. rewrite (impl_geometry_n_spec _ _ _ _ pre.*1) by done. cbv zeta.
    destruct (Z.ltb_spec (Z.of_nat i) 0); [lia|]. cbn [andb].
    rewrite Nat2Z.id, Hg. destruct (Z.leb_spec 0 (Z.of_nat i)); [|lia].
    unfold child_clone. by rewrite (sparse_klasses_entry _ _ _ Htag). }
  split; [apply Hread|].
  rewrite <- Hall, <- (length_fmap fst).
  rewrite (impl_geometry_n_negative_form _ _ _ _ pre.*1) by
    (done || (rewrite length_fmap; lia)).
  apply Hread.
Qed.

Lemma converted_prefix_all factory cast_type (array : list VALUE) :
  length (converted_prefix factory cast_type array) = length array →
  Forall2 (λ obj gt, convert_element obj factory cast_type = Some gt)
          array (converted_prefix factory cast_type array).
Proof.
  induction array as [|obj array IH]; intros Hall; [by constructor|].
  cbn [converted_prefix] in *.
  destruct (convert_element obj factory cast_type) as [gt|] eqn:E; [|done].
  constructor; [done|]. apply IH. simpl in Hall. lia.
Qed.

(** X15. The iterator on the object of a successful construction passes to
    the block one object per element of the array, in the order of the
    array: a newly allocated copy of the geometry the element was converted
    to, under the class its conversion reported. *)
Theorem X15_each_after_create module type factory
    (array : list VALUE) (w w' w'' : World) (result : VALUE) :
  create_geometry_collection module type factory array w = (result, w') →
  result ≠ Qnil →
  let pre := converted_prefix factory (cast_type_for type) array in
  Forall2 (λ obj gt, convert_element obj factory (cast_type_for type) = Some gt)
          array pre
  ∧ method_geometry_collection_each result w''
    = (result,
       MkWorld (live (allocated (length array) w'')) (fresh w'' + length array)
         (relate_log w'')
         (yielded w''
          ++ imap (λ i gt, TypedData gt.2 (Some (Ptr (fresh w'' + i) gt.1))
                             factory Qnil) pre)).
Proof.
  intros Hrun Hres pre.
  destruct (create_geometry_collection_success _ _ _ _ _ _ _ Hrun Hres)
    as (Hall & _ & -> & _).
  fold pre in Hall |- *.
  split; [by apply converted_prefix_all|].
  assert (collection_of (target (assembled_collection type pre.*1 w)) pre.*1)
    as Hcoll by (split; reflexivity).
  assert (imap (λ i c, child_clone factory (sparse_klasses pre.*2)
                         (fresh w'' + i) (Z.of_nat (0 + i)) c) pre.*1
          = imap (λ i gt, TypedData gt.2 (Some (Ptr (fresh w'' + i) gt.1))
                            factory Qnil) pre) as Hvisits.
  { rewrite imap_fmap. apply imap_ext. intros i [g tag] Hi. cbn.
    unfold child_clone.
    rewrite (sparse_klasses_entry pre.*2 i tag); [done|].
    by rewrite list_lookup_fmap, Hi. }
  unfold method_geometry_collection_each.
  cbn [RGEO_GEOMETRY_DATA_PTR data_geom data_klasses].
  rewrite (proj1 Hcoll), length_fmap, Hall.
  destruct (Z.gtb_spec (Z.of_nat (length array)) 0) as [Hpos|Hzero].
  - unfold mbind, M_bind. rewrite Nat2Z.id.
    rewrite (each_loop_spec _ _ _ pre.*1 (length array) Hcoll 0%nat w'')
      by (rewrite length_fmap; simpl; lia).
    rewrite drop_0, firstn_all2 by (rewrite length_fmap; lia).
    cbn [data_factory]. by rewrite Hvisits.
  - assert (pre = []) as Hnil by (destruct pre; [done|simpl in *; lia]).
    assert (length array = 0%nat) as -> by lia.
    unfold mret, M_ret, allocated. rewrite Hnil. simpl.
    rewrite app_nil_r, Nat.add_0_r, (left_id_L ∅ (∪)). by destruct w''.
Qed.

(** ** The equality method *)

(** The bits a mask below 128 selects fit a char. *)
Lemma to_char_land (flags mask : Z) :
  0 ≤ mask < 128 → to_char (Z.land flags mask) = Z.land flags mask.
Proof.
  drop_collaborators.
  intros Hmask.
  assert (0 ≤ Z.land flags mask < 128) as Hbits.
  { assert (Z.land flags mask = Z.land flags mask mod 2 ^ 7) as ->.
    { rewrite <- (Z.land_ones (Z.land flags mask)) by lia.
      rewrite <- Z.land_assoc, (Z.land_ones mask) by lia.
      by rewrite (Z.mod_small mask) by lia. }
    apply Z.mod_pos_bound. lia. }
  unfold to_char. rewrite Z.mod_small by lia. lia.
Qed.

(** X16. eql? hands on the answer of the class-and-factory check when that
    answer is false or nil, without comparing any geometry; when the check
    passes, its answer is the answer of the recursive comparison for the
    geometries of the two objects, with the masked flags of the receiver's
    factory, cut to a char, as the third argument (a mask below 128 loses
    nothing in the cut); that answer is true, false or nil, and nil as soon
    as either object holds no geometry. *)
Theorem X16_eql_method_answers
    (klasses_and_factories_eql : VALUE → VALUE → VALUE) (mask : Z)
    (self rhs : VALUE) :
  (∀ a b z, three_valued (rgeo_geos_coordseqs_eql a b z)) →
  (∀ a b z, three_valued (rgeo_geos_polygons_eql a b z)) →
  let answer :=
    method_geometry_collection_eql klasses_and_factories_eql mask self rhs in
  let geom1 := target <$> data_geom (RGEO_GEOMETRY_DATA_PTR self) in
  let geom2 := target <$> data_geom (RGEO_GEOMETRY_DATA_PTR rhs) in
  let flags := factory_flags (data_factory (RGEO_GEOMETRY_DATA_PTR self)) in
  (RTEST (klasses_and_factories_eql self rhs) = false →
   answer = klasses_and_factories_eql self rhs)
  ∧ (RTEST (klasses_and_factories_eql self rhs) = true →
     answer = rgeo_geos_geometry_collections_eql geom1 geom2
                (to_char (Z.land flags mask))
     ∧ (0 ≤ mask < 128 →
        answer = rgeo_geos_geometry_collections_eql geom1 geom2
                   (Z.land flags mask))
     ∧ three_valued answer
     ∧ (data_geom (RGEO_GEOMETRY_DATA_PTR self) = None
        ∨ data_geom (RGEO_GEOMETRY_DATA_PTR rhs) = None → answer = Qnil)).
Proof.
  intros Hcoord Hpoly answer geom1 geom2 flags. subst answer geom1 geom2 flags.
  unfold method_geometry_collection_eql. split.
  - by intros ->.
  - intros ->. split; [done|]. split; [|split].
    + intros Hmask. by rewrite to_char_land.
    + unfold rgeo_geos_geometry_collections_eql.
      by apply eql_fuel_three_valued.
    + intros [E|E]; rewrite E; cbn [fmap option_fmap option_map].
      * done.
      * rewrite rgeo_geos_geometry_collections_eql_unfold.
        by destruct (data_geom (RGEO_GEOMETRY_DATA_PTR self)).
Qed.

(** X17. Two objects constructed from the same elements by the same factory,
    in whatever states and under whatever classes, are eql? as soon as the
    class-and-factory check passes: the comparison does not look at the
    addresses of the two collections, only at what they hold. The
    comparators of coordinate sequences and of polygons must answer true on
    identical arguments, and the constructed geometry must have all its
    queries answered and all its kinds recognized. *)
Theorem X17_same_elements_eql
    (klasses_and_factories_eql : VALUE → VALUE → VALUE) (mask : Z)
    module1 module2 type factory (array : list VALUE)
    (w1 w1' w2 w2' : World) (result1 result2 : VALUE) (c1 : GEOSGeom_ptr) :
  (∀ a z, rgeo_geos_coordseqs_eql a a z = Qtrue) →
  (∀ a z, rgeo_geos_polygons_eql a a z = Qtrue) →
  create_geometry_collection module1 type factory array w1 = (result1, w1') →
  create_geometry_collection module2 type factory array w2 = (result2, w2') →
  result1 ≠ Qnil → result2 ≠ Qnil →
  data_geom (RGEO_GEOMETRY_DATA_PTR result1) = Some c1 →
  well_nested (target c1) = true →
  RTEST (klasses_and_factories_eql result1 result2) = true →
  method_geometry_collection_eql klasses_and_factories_eql mask result1 result2
  = Qtrue.
Proof.
  intros Hcoord Hpoly Hrun1 Hrun2 Hres1 Hres2 Hc1 Hwn Hcheck.
  destruct (create_geometry_collection_success _ _ _ _ _ _ _ Hrun1 Hres1)
    as (_ & _ & E1 & _).
  destruct (create_geometry_collection_success _ _ _ _ _ _ _ Hrun2 Hres2)
    as (_ & _ & E2 & _).
  unfold method_geometry_collection_eql. rewrite Hcheck, Hc1.
  rewrite E1 in Hc1. cbn [RGEO_GEOMETRY_DATA_PTR data_geom] in Hc1.
  injection Hc1 as <-.
  rewrite E2.
  cbn [RGEO_GEOMETRY_DATA_PTR data_geom data_factory fmap option_fmap option_map
       assembled_collection target] in Hwn |- *.
  by apply (eql_reflexive_fuel Hcoord Hpoly _ _ _ (Nat.le_refl _)).
Qed.

End Collection.

(** ** The statements on the sample data *)

Lemma C1_construction_all_or_nothing_witness :
  world_ok sample_world
  ∧ ∃ geoms klasses w1 w',
      convert_loop sample_convert sample_factory (cast_type_for GEOS_MULTIPOLYGON)
        elements_polygon_point_polygon (length elements_polygon_point_polygon)
        0%nat [] Qnil sample_world
      = ((1%nat, geoms, klasses), w1)
      ∧ length geoms = 1%nat
      ∧ (∀ p, p ∈ geoms → addr p ∈ live w1)
      ∧ create_geometry_collection sample_convert sample_assembles
          sample_relate_matrix sample_module GEOS_MULTIPOLYGON sample_factory
          elements_polygon_point_polygon sample_world
        = (Qnil, w')
      ∧ (∀ p, p ∈ geoms → addr p ∉ live w')
      ∧ live w' = live sample_world.
Proof.
  assert (world_ok sample_world) as Hok.
  { intros a Ha. unfold sample_world in *. simpl in *. set_unfold in Ha. lia. }
  split; [exact Hok|].
  apply (C1_construction_all_or_nothing sample_convert sample_assembles
           sample_relate_matrix sample_module GEOS_MULTIPOLYGON sample_factory
           elements_polygon_point_polygon sample_world 1%nat).
  - exact Hok.
  - simpl. lia.
  - intros j obj Hj Hobj. destruct j as [|j]; [|lia].
    simpl in Hobj. injection Hobj as <-. vm_compute. eauto.
  - eexists. split; [reflexivity|]. vm_compute. reflexivity.
Defined.

(** C2, as stated, fails on the polygon pair whose second member makes the
    engine's relate raise: the constructor returns nil although no pair of
    members matches either pattern. *)
Lemma C2_counterexample :
  fst (create_geometry_collection sample_convert sample_assembles
         sample_relate_matrix sample_module GEOS_MULTIPOLYGON sample_factory
         elements_with_bowtie sample_world) = Qnil
  ∧ ¬ ∃ i j gi gj,
        (j < i)%nat ∧ [square_west; bowtie] !! i = Some gi
        ∧ [square_west; bowtie] !! j = Some gj
        ∧ pair_matches sample_relate_matrix gi gj.
Proof.
  split; [vm_compute; reflexivity|].
  intros (i & j & gi & gj & Hij & Hi & Hj & Hmatch).
  destruct i as [|[|i]]; destruct j as [|[|j]]; simpl in Hi, Hj; try lia;
    try discriminate.
  injection Hi as <-. injection Hj as <-.
  destruct Hmatch as [H|H]; vm_compute in H; discriminate.
Qed.

Lemma C2_multipolygon_assertions_witness :
  fst (create_geometry_collection sample_convert sample_assembles
         sample_relate_matrix sample_module GEOS_MULTIPOLYGON sample_factory
         elements_with_bowtie sample_world) = Qnil
  ↔ ∃ i j gi gj,
      (j < i)%nat ∧ [square_west; bowtie] !! i = Some gi
      ∧ [square_west; bowtie] !! j = Some gj
      ∧ pair_flagged sample_relate_matrix gi gj.
Proof.
  pose proof (C2_multipolygon_assertions sample_convert sample_assembles
                sample_relate_matrix sample_module GEOS_MULTIPOLYGON
                sample_factory elements_with_bowtie sample_world
                (snd (create_geometry_collection sample_convert sample_assembles
                        sample_relate_matrix sample_module GEOS_MULTIPOLYGON
                        sample_factory elements_with_bowtie sample_world))
                (fst (create_geometry_collection sample_convert sample_assembles
                        sample_relate_matrix sample_module GEOS_MULTIPOLYGON
                        sample_factory elements_with_bowtie sample_world))
                ltac:(vm_compute; reflexivity) ltac:(reflexivity)
                ltac:(vm_compute; reflexivity)) as [Hvalidated _].
  destruct (Hvalidated ltac:(split; reflexivity)) as [Hiff _].
  exact Hiff.
Defined.

Lemma C3_counts_differ_false_witness :
  0 ≤ GEOSGetNumGeometries_r collection_two_points
  ∧ 0 ≤ GEOSGetNumGeometries_r collection_one_point
  ∧ rgeo_geos_geometry_collections_eql sample_coordseqs_eql sample_polygons_eql
      (Some collection_two_points) (Some collection_one_point) 0
    = Qfalse.
Proof.
  split; [simpl; lia|]. split; [simpl; lia|].
  apply C3_counts_differ_false; simpl; lia.
Defined.



Lemma C5_is_closed_tests_the_collection_witness :
  sample_line_string_closed line_open = Qfalse
  ∧ GEOSGetGeometryN_r (target sample_multi_line_ptr) 0 = Some line_open
  ∧ method_multi_line_string_is_closed sample_line_string_closed
      (TypedData (Module_ "MultiLineStringImpl") (Some sample_multi_line_ptr)
         sample_factory Qnil)
    = Qnil.
Proof.
  split; [reflexivity|]. split; [reflexivity|].
  rewrite (C5_is_closed_tests_the_collection sample_line_string_closed
             (Module_ "MultiLineStringImpl") sample_multi_line_ptr sample_factory
             Qnil line_open); [reflexivity|simpl; lia|reflexivity].
Defined.

(** C7, as stated, fails on the two squares that share the edge x = 1: their
    interiors do not meet, their boundaries meet in a line, and the
    constructor returns nil with validation enabled. *)
Lemma C7_counterexample :
  sample_relate_matrix square_east square_west = Some "FF2F11212"%string
  ∧ interior_interior "FF2F11212" = Some "F"%char
  ∧ boundary_boundary "FF2F11212" = Some "1"%char
  ∧ Z.land (factory_flags sample_factory) 1 = 0
  ∧ fst (create_geometry_collection sample_convert sample_assembles
           sample_relate_matrix sample_module GEOS_MULTIPOLYGON sample_factory
           elements_shared_edge sample_world) = Qnil.
Proof. repeat split; vm_compute; reflexivity. Qed.

Lemma C7_boundary_contact_under_validation_witness :
  sample_relate_matrix square_corner square_west = Some "FF2F01212"%string
  ∧ fst (create_geometry_collection sample_convert sample_assembles
           sample_relate_matrix sample_module GEOS_MULTIPOLYGON sample_factory
           elements_shared_corner sample_world)
    = TypedData sample_module
        (Some (assembled_collection GEOS_MULTIPOLYGON
                 [square_west; square_corner] sample_world))
        sample_factory
        (sparse_klasses [Qnil; Module_ "ProjectedPolygon"]).
Proof.
  split; [reflexivity|].
  apply (C7_boundary_contact_under_validation sample_convert sample_assembles
           sample_relate_matrix sample_module sample_factory
           (sample_feature Qnil 0 square_west)
           (sample_feature (Module_ "ProjectedPolygon") 1 square_corner)
           square_west square_corner Qnil (Module_ "ProjectedPolygon")
           "FF2F01212"%string sample_world);
    try reflexivity; vm_compute; discriminate.
Defined.

Lemma C8_sparse_class_array_witness :
  snd (fst (convert_loop sample_convert sample_factory
              (cast_type_for GEOS_MULTIPOLYGON) elements_shared_corner
              1%nat 0%nat [] Qnil sample_world)) = Qnil
  ∧ snd (fst (convert_loop sample_convert sample_factory
                (cast_type_for GEOS_MULTIPOLYGON) elements_shared_corner
                2%nat 0%nat [] Qnil sample_world))
    = Ary [Qnil; Module_ "ProjectedPolygon"].
Proof.
  destruct (C8_sparse_class_array sample_convert sample_assembles
              sample_relate_matrix sample_module GEOS_MULTIPOLYGON sample_factory
              elements_shared_corner sample_world) as [Hloop _].
  split.
  - rewrite (Hloop 1%nat) by (simpl; lia). reflexivity.
  - rewrite (Hloop 2%nat) by (simpl; lia). reflexivity.
Defined.

Lemma C9_each_visits_every_child_witness :
  collection_of (target sample_collection_ptr) [point_origin; point_far]
  ∧ yielded (snd (method_geometry_collection_each
                    (TypedData (Module_ "GeometryCollectionImpl")
                       (Some sample_collection_ptr) sample_factory
                       sample_collection_klasses)
                    sample_world))
    = [TypedData Qnil (Some (Ptr 3 point_origin)) sample_factory Qnil;
       TypedData (Module_ "ProjectedPoint") (Some (Ptr 4 point_far))
         sample_factory Qnil].
Proof.
  assert (collection_of (target sample_collection_ptr) [point_origin; point_far])
    as Hcoll by (split; reflexivity).
  split; [exact Hcoll|].
  destruct (C9_each_visits_every_child (Module_ "GeometryCollectionImpl")
              sample_collection_ptr sample_factory sample_collection_klasses
              [point_origin; point_far] sample_world Hcoll) as [Hrun _].
  rewrite Hrun. reflexivity.
Defined.

(** ** Further evaluations on the sample data *)

(** Two polygons with overlapping interiors are rejected when validation is
    enabled, after the first relate call. *)
Example overlapping_rejected_with_validation :
  let run := create_geometry_collection sample_convert sample_assembles
               sample_relate_matrix sample_module GEOS_MULTIPOLYGON
               sample_factory elements_overlapping sample_world in
  fst run = Qnil
  ∧ relate_log (snd run)
    = [(Ptr 4 square_big, Ptr 3 square_west, "2********"%string)]
  ∧ live (snd run) = live sample_world.
Proof. repeat split; vm_compute; reflexivity. Qed.

(** The same elements are assembled, with no relate call, when the flag asks
    to skip validation. *)
Example overlapping_accepted_without_validation :
  let run := create_geometry_collection sample_convert sample_assembles
               sample_relate_matrix sample_module GEOS_MULTIPOLYGON
               sample_factory_no_validation elements_overlapping sample_world in
  fst run
  = TypedData sample_module
      (Some (Ptr 5 (Geom GEOS_MULTIPOLYGON 2
                      [Some square_west; Some square_big] [])))
      sample_factory_no_validation Qnil
  ∧ relate_log (snd run) = [].
Proof. split; vm_compute; reflexivity. Qed.

(** A plain GeometryCollection of the same elements is never validated. *)
Example overlapping_accepted_in_plain_collection :
  let run := create_geometry_collection sample_convert sample_assembles
               sample_relate_matrix sample_module GEOS_GEOMETRYCOLLECTION
               sample_factory elements_overlapping sample_world in
  NIL_P (fst run) = false ∧ relate_log (snd run) = [].
Proof. split; vm_compute; reflexivity. Qed.

(** The comparison follows nested collections. *)
Example nested_collection_equals_itself :
  rgeo_geos_geometry_collections_eql sample_coordseqs_eql sample_polygons_eql
    (Some collection_nested) (Some collection_nested) 0 = Qtrue.
Proof. vm_compute. reflexivity. Qed.

Example nested_collection_differs_in_a_child :
  rgeo_geos_geometry_collections_eql sample_coordseqs_eql sample_polygons_eql
    (Some collection_nested) (Some collection_two_points) 0 = Qfalse.
Proof. vm_compute. reflexivity. Qed.

(** impl_geometry_n on the sample collection of two points. *)
Example impl_geometry_n_last_by_negative_index :
  fst (impl_geometry_n sample_collection (-1) 1 sample_world)
  = fst (impl_geometry_n sample_collection 1 1 sample_world)
  ∧ fst (impl_geometry_n sample_collection 1 1 sample_world)
    = TypedData (Module_ "ProjectedPoint") (Some (Ptr 3 point_far))
        sample_factory Qnil.
Proof. split; vm_compute; reflexivity. Qed.

Example impl_geometry_n_out_of_range :
  impl_geometry_n sample_collection 2 1 sample_world = (Qnil, sample_world)
  ∧ impl_geometry_n sample_collection (-3) 1 sample_world = (Qnil, sample_world)
  ∧ impl_geometry_n sample_collection (-1) 0 sample_world = (Qnil, sample_world).
Proof. repeat split; vm_compute; reflexivity. Qed.

(** The closedness test does not look at the members: a MultiLineString whose
    only member is closed is not reported closed either. *)
Example is_closed_with_closed_member :
  sample_line_string_closed line_closed = Qtrue
  ∧ method_multi_line_string_is_closed sample_line_string_closed
      (TypedData (Module_ "MultiLineStringImpl") (Some (Ptr 0 multi_line_closed))
         sample_factory Qnil)
    = Qnil.
Proof. split; vm_compute; reflexivity. Qed.

(** ** The further statements on the sample data *)

Lemma sample_coordseqs_eql_refl (a : GEOSGeometry) (z : Z) :
  sample_coordseqs_eql a a z = Qtrue.
Proof. unfold sample_coordseqs_eql. by rewrite decide_True. Defined.

Lemma sample_polygons_eql_refl (a : GEOSGeometry) (z : Z) :
  sample_polygons_eql a a z = Qtrue.
Proof. unfold sample_polygons_eql. by rewrite decide_True. Defined.

Lemma sample_coordseqs_eql_three_valued (a b : GEOSGeometry) (z : Z) :
  three_valued (sample_coordseqs_eql a b z).
Proof.
  unfold sample_coordseqs_eql, three_valued.
  destruct (decide (geom_coords a = geom_coords b)); auto.
Defined.

Lemma sample_polygons_eql_three_valued (a b : GEOSGeometry) (z : Z) :
  three_valued (sample_polygons_eql a b z).
Proof.
  unfold sample_polygons_eql, three_valued.
  destruct (decide (geom_coords a = geom_coords b)); auto.
Defined.

Lemma sample_world_ok : world_ok sample_world.
Proof. intros a Ha. unfold sample_world in *. simpl in *. set_unfold in Ha. lia. Defined.

Lemma X1_eql_reflexive_witness :
  well_nested collection_nested = true
  ∧ rgeo_geos_geometry_collections_eql sample_coordseqs_eql sample_polygons_eql
      (Some collection_nested) (Some collection_nested) 0
    = Qtrue.
Proof.
  split; [reflexivity|].
  apply (X1_eql_reflexive sample_coordseqs_eql sample_polygons_eql
           collection_nested 0).
  - exact sample_coordseqs_eql_refl.
  - exact sample_polygons_eql_refl.
  - reflexivity.
Defined.

Lemma X2_eql_symmetric_witness :
  rgeo_geos_geometry_collections_eql sample_coordseqs_eql sample_polygons_eql
    (Some collection_nested) (Some collection_two_points) 0
  = rgeo_geos_geometry_collections_eql sample_coordseqs_eql sample_polygons_eql
      (Some collection_two_points) (Some collection_nested) 0.
Proof.
  apply (X2_eql_symmetric sample_coordseqs_eql sample_polygons_eql).
  - intros a b z. unfold sample_coordseqs_eql.
    destruct (decide (geom_coords a = geom_coords b)),
             (decide (geom_coords b = geom_coords a)); congruence.
  - intros a b z. unfold sample_polygons_eql.
    destruct (decide (geom_coords a = geom_coords b)),
             (decide (geom_coords b = geom_coords a)); congruence.
Defined.

Lemma X3_eql_three_valued_witness :
  three_valued
    (rgeo_geos_geometry_collections_eql sample_coordseqs_eql sample_polygons_eql
       (Some collection_nested) (Some collection_broken_child) 0).
Proof.
  apply (X3_eql_three_valued sample_coordseqs_eql sample_polygons_eql).
  - exact sample_coordseqs_eql_three_valued.
  - exact sample_polygons_eql_three_valued.
Defined.

Lemma X4_eql_ignores_top_level_kind_witness :
  rgeo_geos_geometry_collections_eql sample_coordseqs_eql sample_polygons_eql
    (Some (Geom GEOS_MULTIPOINT 0 [] []))
    (Some (Geom GEOS_MULTIPOLYGON 0 [] [])) 0
  = Qtrue.
Proof.
  by apply (X4_eql_ignores_top_level_kind sample_coordseqs_eql sample_polygons_eql
              GEOS_MULTIPOINT GEOS_MULTIPOINT GEOS_MULTIPOLYGON GEOS_MULTIPOLYGON
              0 0 [] [] [] [] [] [] 0).
Defined.

Lemma X5_impl_geometry_n_indexing_witness :
  collection_of (target sample_collection_ptr) [point_origin; point_far]
  ∧ impl_geometry_n sample_collection (-1) 1 sample_world
    = impl_geometry_n sample_collection 1 1 sample_world
  ∧ impl_geometry_n sample_collection (-1) 0 sample_world = (Qnil, sample_world).
Proof.
  assert (collection_of (target sample_collection_ptr) [point_origin; point_far])
    as Hcoll by (split; reflexivity).
  split; [exact Hcoll|].
  destruct (X5_impl_geometry_n_indexing (Module_ "GeometryCollectionImpl")
              sample_collection_ptr sample_factory sample_collection_klasses
              [point_origin; point_far] (-1) 1 sample_world Hcoll)
    as (_ & Hneg & _ & Hrefused).
  split.
  - apply Hneg. simpl. lia.
  - apply Hrefused. lia.
Defined.

Lemma X6_impl_geometry_n_frame_witness :
  world_ok sample_world
  ∧ (impl_geometry_n sample_collection 1 0 sample_world = (Qnil, sample_world)
     ∨ ∃ self_ptr i child,
         data_geom (RGEO_GEOMETRY_DATA_PTR sample_collection) = Some self_ptr
         ∧ 0 ≤ i < GEOSGetNumGeometries_r (target self_ptr)
         ∧ GEOSGetGeometryN_r (target self_ptr) i = Some child
         ∧ impl_geometry_n sample_collection 1 0 sample_world
           = (child_clone (data_factory (RGEO_GEOMETRY_DATA_PTR sample_collection))
                (data_klasses (RGEO_GEOMETRY_DATA_PTR sample_collection))
                (fresh sample_world) i child,
              allocated 1 sample_world)
         ∧ fresh sample_world ∉ live sample_world).
Proof.
  split; [exact sample_world_ok|].
  apply (X6_impl_geometry_n_frame sample_collection 1 0 sample_world).
  exact sample_world_ok.
Defined.

Lemma X7_each_skips_unfetchable_witness :
  yielded (snd (method_geometry_collection_each sample_broken_collection
                  sample_world))
  = [TypedData Qnil (Some (Ptr 3 point_origin)) sample_factory Qnil].
Proof.
  pose proof (X7_each_skips_unfetchable sample_broken_collection sample_world)
    as Hrun.
  cbn [sample_broken_collection RGEO_GEOMETRY_DATA_PTR data_geom] in Hrun.
  destruct Hrun as [Hrun _]. rewrite Hrun. reflexivity.
Defined.

Lemma X8_is_closed_cases_witness :
  method_multi_line_string_is_closed sample_line_string_closed
    (TypedData (Module_ "MultiLineStringImpl") (Some (Ptr 0 multi_line_unfetchable))
       sample_factory Qnil)
  = Qtrue.
Proof.
  pose proof (X8_is_closed_cases sample_line_string_closed
                (TypedData (Module_ "MultiLineStringImpl")
                   (Some (Ptr 0 multi_line_unfetchable)) sample_factory Qnil))
    as Hrun.
  cbn [RGEO_GEOMETRY_DATA_PTR data_geom] in Hrun.
  destruct Hrun as [_ Hrun]. rewrite Hrun. reflexivity.
Defined.

Lemma X9_create_owns_one_resource_or_none_witness :
  let run := create_geometry_collection sample_convert sample_assembles
               sample_relate_matrix sample_module GEOS_MULTIPOLYGON
               sample_factory elements_shared_corner sample_world in
  world_ok sample_world
  ∧ world_ok (snd run)
  ∧ yielded (snd run) = yielded sample_world
  ∧ ((fst run = Qnil ∧ live (snd run) = live sample_world)
     ∨ ∃ c klasses,
         fst run = TypedData sample_module (Some c) sample_factory klasses
         ∧ (addr c ∉ live sample_world)
         ∧ live (snd run) = {[addr c]} ∪ live sample_world).
Proof.
  intros run. split; [exact sample_world_ok|].
  apply (X9_create_owns_one_resource_or_none sample_convert sample_assembles
           sample_relate_matrix sample_module GEOS_MULTIPOLYGON sample_factory
           elements_shared_corner sample_world (snd run) (fst run)).
  - exact sample_world_ok.
  - intros _. reflexivity.
  - apply surjective_pairing.
Defined.

Lemma X10_relate_only_for_validated_multipolygon_witness :
  Z.land (factory_flags sample_factory_no_validation) 1 ≠ 0
  ∧ relate_log (snd (cmethod_multi_polygon_create sample_convert sample_assembles
                       sample_relate_matrix sample_module
                       sample_factory_no_validation elements_overlapping
                       sample_world))
    = relate_log sample_world.
Proof.
  split; [done|].
  apply (X10_relate_only_for_validated_multipolygon sample_convert
           sample_assembles sample_relate_matrix sample_module
           sample_factory_no_validation elements_overlapping sample_world).
  done.
Defined.

Lemma X11_relate_query_count_witness :
  length (relate_log (snd (create_geometry_collection sample_convert
                             sample_assembles sample_relate_matrix sample_module
                             GEOS_MULTIPOLYGON sample_factory
                             elements_shared_corner sample_world)))
  = 2%nat.
Proof.
  apply (X11_relate_query_count sample_convert sample_assembles
           sample_relate_matrix sample_module GEOS_MULTIPOLYGON sample_factory
           elements_shared_corner sample_world).
  - vm_compute. discriminate.
  - reflexivity.
  - reflexivity.
Defined.

Lemma X12_fewer_than_two_elements_witness :
  let run := create_geometry_collection sample_convert sample_assembles
               sample_relate_matrix sample_module GEOS_MULTIPOLYGON
               sample_factory elements_one_polygon sample_world in
  fst run
  = TypedData sample_module
      (Some (Ptr 4 (Geom GEOS_MULTIPOLYGON 1 [Some square_west] [])))
      sample_factory Qnil
  ∧ relate_log (snd run) = relate_log sample_world.
Proof.
  intros run.
  destruct (X12_fewer_than_two_elements sample_convert sample_assembles
              sample_relate_matrix sample_module GEOS_MULTIPOLYGON sample_factory
              elements_one_polygon sample_world)
    as (Hobject & Hlog & _).
  - simpl. lia.
  - reflexivity.
  - reflexivity.
  - split; [|exact Hlog]. subst run. rewrite Hobject. reflexivity.
Defined.

Lemma X13_size_of_constructed_collection_witness :
  let run := create_geometry_collection sample_convert sample_assembles
               sample_relate_matrix sample_module GEOS_MULTIPOLYGON
               sample_factory elements_shared_corner sample_world in
  fst run ≠ Qnil
  ∧ method_geometry_collection_num_geometries (fst run) = INT2NUM 2.
Proof.
  intros run.
  assert (fst run ≠ Qnil) as Hres by (vm_compute; discriminate).
  split; [exact Hres|].
  apply (X13_size_of_constructed_collection sample_convert sample_assembles
           sample_relate_matrix sample_module GEOS_MULTIPOLYGON sample_factory
           elements_shared_corner sample_world (snd run) (fst run)).
  - apply surjective_pairing.
  - exact Hres.
Defined.

Lemma X14_element_read_back_witness :
  let run := create_geometry_collection sample_convert sample_assembles
               sample_relate_matrix sample_module GEOS_MULTIPOLYGON
               sample_factory elements_shared_corner sample_world in
  fst run ≠ Qnil
  ∧ ∃ g tag,
      sample_convert (sample_feature (Module_ "ProjectedPolygon") 1 square_corner)
        sample_factory (cast_type_for GEOS_MULTIPOLYGON) = Some (g, tag)
      ∧ impl_geometry_n (fst run) (Z.of_nat 1) 0 sample_world_later
        = (TypedData tag (Some (Ptr (fresh sample_world_later) g)) sample_factory
             Qnil,
           allocated 1 sample_world_later)
      ∧ impl_geometry_n (fst run)
          (Z.of_nat 1 - Z.of_nat (length elements_shared_corner)) 1
          sample_world_later
        = (TypedData tag (Some (Ptr (fresh sample_world_later) g)) sample_factory
             Qnil,
           allocated 1 sample_world_later).
Proof.
  intros run.
  assert (fst run ≠ Qnil) as Hres by (vm_compute; discriminate).
  split; [exact Hres|].
  apply (X14_element_read_back sample_convert sample_assembles
           sample_relate_matrix sample_module GEOS_MULTIPOLYGON sample_factory
           elements_shared_corner sample_world (snd run) sample_world_later
           (fst run) 1%nat).
  - apply surjective_pairing.
  - exact Hres.
  - reflexivity.
Defined.

Lemma X15_each_after_create_witness :
  let run := create_geometry_collection sample_convert sample_assembles
               sample_relate_matrix sample_module GEOS_MULTIPOLYGON
               sample_factory elements_shared_corner sample_world in
  fst run ≠ Qnil
  ∧ yielded (snd (method_geometry_collection_each (fst run) sample_world_later))
    = [TypedData Qnil (Some (Ptr 9 square_west)) sample_factory Qnil;
       TypedData (Module_ "ProjectedPolygon") (Some (Ptr 10 square_corner))
         sample_factory Qnil].
Proof.
  intros run.
  assert (fst run ≠ Qnil) as Hres by (vm_compute; discriminate).
  split; [exact Hres|].
  destruct (X15_each_after_create sample_convert sample_assembles
              sample_relate_matrix sample_module GEOS_MULTIPOLYGON sample_factory
              elements_shared_corner sample_world (snd run) sample_world_later
              (fst run) (surjective_pairing _) Hres) as [_ Hrun].
  rewrite Hrun. reflexivity.
Defined.

Lemma X16_eql_method_answers_witness :
  RTEST (sample_klasses_and_factories_eql sample_collection
           sample_one_point_collection)
  = true
  ∧ method_geometry_collection_eql sample_coordseqs_eql sample_polygons_eql
      sample_klasses_and_factories_eql sample_supports_z_or_m
      sample_collection sample_one_point_collection
    = Qfalse
  ∧ method_geometry_collection_eql sample_coordseqs_eql sample_polygons_eql
      sample_klasses_and_factories_eql sample_supports_z_or_m
      sample_collection sample_collection
    = Qtrue.
Proof.
  split; [reflexivity|].
  destruct (X16_eql_method_answers sample_coordseqs_eql sample_polygons_eql
              sample_klasses_and_factories_eql sample_supports_z_or_m
              sample_collection sample_one_point_collection
              sample_coordseqs_eql_three_valued sample_polygons_eql_three_valued)
    as [_ Hother].
  destruct (X16_eql_method_answers sample_coordseqs_eql sample_polygons_eql
              sample_klasses_and_factories_eql sample_supports_z_or_m
              sample_collection sample_collection
              sample_coordseqs_eql_three_valued sample_polygons_eql_three_valued)
    as [_ Hself].
  destruct (Hother eq_refl) as (Hother' & _).
  destruct (Hself eq_refl) as (Hself' & _).
  rewrite Hother', Hself'. split; reflexivity.
Defined.

Lemma X17_same_elements_eql_witness :
  let first := create_geometry_collection sample_convert sample_assembles
                 sample_relate_matrix sample_module GEOS_MULTIPOLYGON
                 sample_factory elements_shared_corner sample_world in
  let second := create_geometry_collection sample_convert sample_assembles
                  sample_relate_matrix (Module_ "ProjectedMultiPolygon")
                  GEOS_MULTIPOLYGON sample_factory elements_shared_corner
                  sample_world_later in
  fst first ≠ fst second
  ∧ method_geometry_collection_eql sample_coordseqs_eql sample_polygons_eql
      sample_klasses_and_factories_eql sample_supports_z_or_m
      (fst first) (fst second)
    = Qtrue.
Proof.
  intros first second.
  split; [vm_compute; discriminate|].
  apply (X17_same_elements_eql sample_convert sample_assembles
           sample_relate_matrix sample_coordseqs_eql sample_polygons_eql
           sample_klasses_and_factories_eql sample_supports_z_or_m
           sample_module (Module_ "ProjectedMultiPolygon") GEOS_MULTIPOLYGON
           sample_factory elements_shared_corner
           sample_world (snd first) sample_world_later (snd second)
           (fst first) (fst second)
           (Ptr 5 (Geom GEOS_MULTIPOLYGON 2 [Some square_west; Some square_corner]
                     []))).
  - exact sample_coordseqs_eql_refl.
  - exact sample_polygons_eql_refl.
  - apply surjective_pairing.
  - apply surjective_pairing.
  - vm_compute. discriminate.
  - vm_compute. discriminate.
  - reflexivity.
  - reflexivity.
  - reflexivity.
Defined.
